(** * Verification layer of the wallet client: Verifier and Utils

    A shallow embedding of [lib/verifier.js] and of the [Defaults] and
    [Utils] modules of the wallet client.  JavaScript values are modelled
    as follows.

    - A property that may be absent is an [option]; JavaScript truthiness
      is written out ([truthy_s], [truthy_z]).
    - Amounts handled by the verifier are integers ([Z]); the unit scaling
      of [convertTxpSatoshiToCoinProtocol] works on exact rationals ([Q]),
      and the totals of [buildTx] are also given as sums of doubles.
    - A function that is handed objects is given a second time over
      those objects as explicit state.
    - An exception is a value of [error]; a function that can throw
      returns a [result].
    - The external collaborators (the elliptic-curve library, the
      transaction container, sjcl) are interfaces: type classes whose
      operations return [None] where the library throws. *)

From Stdlib Require Import ZArith QArith String Ascii List Lia.
From stdpp Require Import base option list strings pretty gmap.

Open Scope string_scope.
Open Scope Z_scope.

(** ** Exceptions and results *)

Inductive error : Type :=
| InvalidState      (* $.checkState(false) *)
| InvalidArgument   (* $.checkArgument(false) *)
| TypeError         (* property read on undefined *)
| LibraryError      (* raised inside an external collaborator *)
| NotSupported.     (* new Error('Transaction proposal not supported') *)

Inductive result (A : Type) : Type :=
| Ok (a : A)
| Throw (e : error).
Arguments Ok {A} a.
Arguments Throw {A} e.

#[global] Instance error_eq_dec : EqDecision error.
Proof. solve_decision. Defined.

#[global] Instance result_ret : MRet result := fun A a => Ok a.
#[global] Instance result_bind : MBind result := fun A B f r =>
  match r with
  | Ok a => f a
  | Throw e => Throw e
  end.

Definition checkState (cond : bool) : result unit :=
  if cond then Ok tt else Throw InvalidState.

Definition checkArgument (cond : bool) : result unit :=
  if cond then Ok tt else Throw InvalidArgument.

(** A call into an external collaborator: [None] is an exception of the
    library. *)
Definition lib {A} (r : option A) : result A :=
  match r with
  | Some a => Ok a
  | None => Throw LibraryError
  end.

(** [try { body } catch (e) { handler e }] *)
Definition try_catch {A} (body : result A) (handler : error -> result A) : result A :=
  match body with
  | Ok a => Ok a
  | Throw e => handler e
  end.

(** [_.map] with a callback that can throw: left to right, the first
    exception escapes. *)
Fixpoint mapM {A B} (f : A -> result B) (l : list A) : result (list B) :=
  match l with
  | [] => Ok []
  | x :: xs => y ← f x; ys ← mapM f xs; Ok (y :: ys)
  end.

(** [_.each] with a callback that updates an accumulator and can throw. *)
Fixpoint foldM {A S} (f : S -> A -> result S) (l : list A) (s : S) : result S :=
  match l with
  | [] => Ok s
  | x :: xs => s' ← f s x; foldM f xs s'
  end.

(** ** JavaScript truthiness and comparisons *)

Definition truthy_s (v : option string) : bool :=
  match v with
  | Some s => negb (String.eqb s "")
  | None => false
  end.

Definition truthy_z (v : option Z) : bool :=
  match v with
  | Some z => negb (z =? 0)
  | None => false
  end.

(** [a || b] on optional strings *)
Definition or_s (a b : option string) : option string :=
  if truthy_s a then a else b.

(** [a == b] and [a === b] between two values of one type, either of
    which may be undefined *)
Definition eq_s (a b : option string) : bool := bool_decide (a = b).
Definition eq_z (a b : option Z) : bool := bool_decide (a = b).

(** [_.includes(list, x)] *)
Definition includes {A} `{EqDecision A} (l : list A) (x : A) : bool :=
  bool_decide (x ∈ l).

(** [_.difference(a, b)]: the elements of [a] that do not occur in [b] *)
Definition difference (a b : list string) : list string :=
  List.filter (fun x => negb (includes b x)) a.

(** [parseInt(v) >= 3]; an absent version parses to NaN and every
    comparison with NaN is false. *)
Definition version_ge_3 (version : option Z) : bool :=
  match version with
  | Some v => 3 <=? v
  | None => false
  end.

(** ** Defaults *)

Module Defaults.
Definition COIN : Z := 100000000.
Definition PEERCOIN_COIN : Z := 1000000.
Definition DEFAULT_FEE_PER_KB : Z := COIN / 1000.
Definition MIN_FEE_PER_KB : Z := 0.
Definition MAX_FEE_PER_KB : Z := COIN.
Definition MAX_TX_FEE : Z := 1 * COIN.
End Defaults.

(** ** Data model *)

(** One entry of [credentials.publicKeyRing]. *)
Record RingEntry : Type := {
  ring_xPubKey : string;
  ring_requestPubKey : option string
}.

Record Credentials : Type := {
  cred_network : string;
  cred_addressType : option string;
  cred_m : option Z;
  cred_n : option Z;
  cred_publicKeyRing : list RingEntry;
  cred_walletPrivKey : option string;
  cred_xPubKey : option string
}.

(** An address object as the server sends it. *)
Record AddressObj : Type := {
  addr_type : option string;
  addr_path : string;
  addr_address : string;
  addr_publicKeys : list string
}.

(** The value returned by [Utils.deriveAddress]. *)
Record DerivedAddress : Type := {
  da_address : string;
  da_path : string;
  da_publicKeys : list string
}.

(** A roster entry as the server sends it. *)
Record Copayer : Type := {
  cp_name : option string;
  cp_encryptedName : option string;
  cp_xPubKey : option string;
  cp_requestPubKey : option string;
  cp_signature : option string
}.

Record TxpInput : Type := {
  in_txid : string;
  in_vout : Z;
  in_satoshis : Z;
  in_publicKeys : list string
}.

Record TxpOutput : Type := {
  o_toAddress : option string;
  o_script : option string;
  o_amount : Z;
  o_message : option string
}.

Record Txp : Type := {
  txp_version : option Z;
  txp_addressType : option string;
  txp_inputs : list TxpInput;
  txp_outputs : option (list TxpOutput);
  txp_toAddress : option string;
  txp_amount : option Z;
  txp_fee : option Z;
  txp_feePerKb : option Z;
  txp_requiredSignatures : Z;
  txp_changeAddress : option AddressObj;
  txp_outputOrder : list Z;
  txp_creatorId : option string;
  txp_proposalSignature : option string;
  txp_proposalSignaturePubKey : option string;
  txp_proposalSignaturePubKeySig : option string;
  txp_message : option string;
  txp_payProUrl : option string;
  txp_customData : option string
}.

(** The options a proposal was created with ([args] of
    [checkProposalCreation]). *)
Record ProposalArgs : Type := {
  args_outputs : list TxpOutput;
  args_changeAddress : option string;
  args_feePerKb : option Z;
  args_payProUrl : option string;
  args_message : option string;
  args_customData : option string
}.

Record PayproOpts : Type := {
  pp_toAddress : option string;
  pp_amount : option Z
}.

(** The credentials with another [addressType]. *)
Definition set_addressType (addressType : option string) (c : Credentials) : Credentials :=
  {| cred_network := cred_network c;
     cred_addressType := addressType;
     cred_m := cred_m c;
     cred_n := cred_n c;
     cred_publicKeyRing := cred_publicKeyRing c;
     cred_walletPrivKey := cred_walletPrivKey c;
     cred_xPubKey := cred_xPubKey c |}.

(** The proposal with another output list. *)
Definition set_outputs (outputs : option (list TxpOutput)) (p : Txp) : Txp :=
  {| txp_version := txp_version p;
     txp_addressType := txp_addressType p;
     txp_inputs := txp_inputs p;
     txp_outputs := outputs;
     txp_toAddress := txp_toAddress p;
     txp_amount := txp_amount p;
     txp_fee := txp_fee p;
     txp_feePerKb := txp_feePerKb p;
     txp_requiredSignatures := txp_requiredSignatures p;
     txp_changeAddress := txp_changeAddress p;
     txp_outputOrder := txp_outputOrder p;
     txp_creatorId := txp_creatorId p;
     txp_proposalSignature := txp_proposalSignature p;
     txp_proposalSignaturePubKey := txp_proposalSignaturePubKey p;
     txp_proposalSignaturePubKeySig := txp_proposalSignaturePubKeySig p;
     txp_message := txp_message p;
     txp_payProUrl := txp_payProUrl p;
     txp_customData := txp_customData p |}.

(** Modelled from the spec: [credentials.isComplete()] lives in the
    credentials module, which is not among the sources; the data model
    says it holds when the threshold fields are set and all [n] ring
    entries are present. *)
Definition isComplete (c : Credentials) : bool :=
  truthy_z (cred_m c) && truthy_z (cred_n c) &&
  eq_z (Some (Z.of_nat (length (cred_publicKeyRing c)))) (cred_n c).

(** ** External collaborators *)

(** A [Buffer] is its list of bytes. *)
Definition Buffer : Type := list ascii.

(** [Constants.SCRIPT_TYPES] and [Constants.PATHS] are read from the
    constants module. *)
Class Constants : Type := {
  SCRIPT_TYPES_P2SH : string;
  SCRIPT_TYPES_P2PKH : string;
  PATHS_REQUEST_KEY_AUTH : string
}.

(** The elliptic-curve and address library.  A public key that came out
    of a derivation is carried as its string form. *)
Class CryptoLib : Type := {
  PublicKey : Type;
  Signature : Type;
  (* new PublicKey(str) *)
  PublicKey_new : string -> option PublicKey;
  (* PrivateKey.fromString(str).toPublicKey().toString() *)
  PrivateKey_toPublicKey : string -> option string;
  (* crypto.Signature.fromString(str) *)
  Signature_fromString : string -> option Signature;
  (* crypto.ECDSA.verify(hash, sig, pub, 'little') *)
  ECDSA_verify : Buffer -> Signature -> PublicKey -> option bool;
  (* crypto.Hash.sha256sha256(buf) *)
  Hash_sha256sha256 : Buffer -> Buffer;
  (* new HDPublicKey(xpub).deriveChild(path).publicKey *)
  HDPublicKey_deriveChild : string -> string -> option string;
  (* Address.createMultisig(publicKeys, m, network).toString() *)
  Address_createMultisig : list string -> option Z -> string -> option string;
  (* Address.fromPublicKey(publicKey, network).toString() *)
  Address_fromPublicKey : string -> string -> option string
}.

(** sjcl *)
Class Sjcl : Type := {
  Bits : Type;
  (* sjcl.codec.base64.toBits(str) *)
  base64_toBits : string -> option Bits;
  (* sjcl.decrypt(key, ciphertext) *)
  sjcl_decrypt : Bits -> string -> option string;
  (* sjcl.codec.hex.fromBits(sjcl.hash.sha256.hash(str)) *)
  sha256_hex : string -> string
}.

(** The transaction container of the library.  [sortOutputs] receives
    the list the callback computed, in which a slot is [None] where the
    callback read past the array. *)
Class TransactionLib : Type := {
  Transaction : Type;
  Output : Type;
  Transaction_new : Transaction;
  (* t.from(utxo, publicKeys, threshold) *)
  tx_from_multisig : Transaction -> TxpInput -> list string -> Z -> option Transaction;
  (* t.from(utxos) *)
  tx_from : Transaction -> list TxpInput -> option Transaction;
  (* t.to(address, amount) *)
  tx_to : Transaction -> option string -> Z -> option Transaction;
  (* t.addOutput(new Output({script, satoshis})) *)
  tx_addOutput : Transaction -> option string -> Z -> option Transaction;
  (* t.fee(amount) *)
  tx_fee : Transaction -> option Z -> option Transaction;
  (* t.change(address) *)
  tx_change : Transaction -> string -> option Transaction;
  (* t.sortOutputs(callback) *)
  tx_sortOutputs : Transaction -> (list Output -> list (option Output)) -> option Transaction;
  (* t.outputs *)
  tx_outputs : Transaction -> list Output;
  (* o.satoshis *)
  out_satoshis : Output -> Z;
  (* t.uncheckedSerialize() *)
  tx_uncheckedSerialize : Transaction -> option string
}.

(** The signing side of the elliptic-curve library.  [signMessage] is
    handed either the string form of a private key or a private key
    object. *)
Class SigningLib : Type := {
  PrivateKey : Type;
  (* new PrivateKey(privKey) *)
  PrivateKey_new : string + PrivateKey -> option PrivateKey;
  (* crypto.ECDSA.sign(hash, priv, 'little').toString() *)
  ECDSA_sign : Buffer -> PrivateKey -> option string;
  (* new HDPrivateKey(xPrivKey).deriveChild(path).privateKey *)
  HDPrivateKey_deriveChild : string -> string -> option PrivateKey
}.

(** [sjcl.encrypt(key, plaintext, params)]; the parameters are an object
    with numeric properties. *)
Class SjclEncrypt `{Sjcl} : Type := {
  sjcl_encrypt : Bits -> string -> gmap string Z -> option string
}.

(** An argument of [getProposalHash]: undefined, a string, an integer
    (printed in decimal by [join]) or a header object, which only the
    serializer looks into. *)
Inductive JsArg (Header : Type) : Type :=
| AUndef
| AStr (s : string)
| ANum (z : Z)
| AObj (h : Header).
Arguments AUndef {Header}.
Arguments AStr {Header} s.
Arguments ANum {Header} z.
Arguments AObj {Header} h.

(** json-stable-stringify *)
Class StringifyLib : Type := {
  Header : Type;
  Stringify : JsArg Header -> string
}.

(** ** The options object of the unit scaling

    [convertTxpSatoshiToCoinProtocol] assigns to the properties of the
    object it is given and returns that same object.  A property of
    that object is undefined, NaN, a number or a string; a number is an
    exact rational here.  The outputs and the inputs are distinct
    objects. *)

Inductive JsVal : Type :=
| VUndef
| VNaN
| VNum (q : Q)
| VStr (s : string).

Record ConvOutput : Type := {
  cvo_toAddress : option string;
  cvo_amount : JsVal
}.

Record ConvInput : Type := {
  cvi_txid : string;
  cvi_satoshis : JsVal
}.

Record ConvOpts : Type := {
  cv_feeLevel : JsVal;
  cv_feePerKb : JsVal;
  cv_fee : JsVal;
  cv_outputs : option (list ConvOutput);
  cv_inputs : option (list ConvInput);
  cv_amount : JsVal
}.

(** Truthiness of a ratio argument, a number or absent. *)
Definition truthy_q (v : option Q) : bool :=
  match v with
  | Some q => negb (Qeq_bool q 0)
  | None => false
  end.

(** [_.isNumber(v)]: NaN is a number. *)
Definition isNumber (v : JsVal) : bool :=
  match v with
  | VNaN | VNum _ => true
  | VUndef | VStr _ => false
  end.

Definition truthy_val (v : JsVal) : bool :=
  match v with
  | VNum q => negb (Qeq_bool q 0)
  | VStr s => negb (String.eqb s "")
  | VUndef | VNaN => false
  end.

(** Conversions between numbers and strings: the decimal form of an
    integer as [join] prints it, and [ToNumber] of a string ([None] is
    NaN). *)
Class NumberLib : Type := {
  number_to_string : Z -> string;
  string_to_number : string -> option Q
}.

(** ** JavaScript numbers held in the [uniq] array of [checkCopayers] *)

Inductive JsNum : Type :=
| JNaN
| JNum (z : Z).

(** [ToNumber] of a slot of the array: an absent slot is [undefined],
    which converts to NaN. *)
Definition to_number (v : option JsNum) : JsNum :=
  match v with
  | Some n => n
  | None => JNaN
  end.

Definition js_succ (n : JsNum) : JsNum :=
  match n with
  | JNaN => JNaN
  | JNum z => JNum (z + 1)
  end.

Definition truthy_num (n : JsNum) : bool :=
  match n with
  | JNaN => false
  | JNum z => negb (z =? 0)
  end.

(** [ToPropertyKey]: the key under which [arr[v]] is stored. *)
Definition property_key (v : option string) : string :=
  match v with
  | Some s => s
  | None => "undefined"
  end.

(** [arr[key]++]: the old value converted to a number is the value of
    the expression, and its successor is stored. *)
Definition post_increment (arr : gmap string JsNum) (key : string) : JsNum * gmap string JsNum :=
  let old := to_number (arr !! key) in
  (old, <[key := js_succ old]> arr).

(** [arr[i]] for an integer [i] *)
Definition js_index {A} (arr : list A) (i : Z) : option A :=
  if i <? 0 then None else arr !! Z.to_nat i.

(** [[a, b, c].join('|')]: an undefined element prints as the empty
    string. *)
Definition join_pipe (l : list (option string)) : string :=
  String.concat "|" (List.map (fun v => default "" v) l).

(** ** Utils *)

Module Utils.
Section WithLibraries.
Context `{Constants} `{CryptoLib} `{Sjcl} `{TransactionLib}.

Definition decryptMessage (cyphertextJson : option string) (encryptingKey : string) : result (option string) :=
  try_catch
    (key ← lib (base64_toBits encryptingKey);
     c ← lib cyphertextJson;
     p ← lib (sjcl_decrypt key c);
     Ok (Some p))
    (fun ex => Ok cyphertextJson).

Definition hashMessage (text : string) : result Buffer :=
  checkArgument (truthy_s (Some text));;
  let buf := list_ascii_of_string text in
  let ret := Hash_sha256sha256 buf in
  Ok (rev ret).

Definition verifyMessage (text : string) (signature : option string) (pubKey : string) : result bool :=
  checkArgument (truthy_s (Some text));;
  checkArgument (truthy_s (Some pubKey));;
  if negb (truthy_s signature) then Ok false else
  pub ← lib (PublicKey_new pubKey);
  hash ← hashMessage text;
  try_catch
    (s ← lib signature;
     sig ← lib (Signature_fromString s);
     verified ← lib (ECDSA_verify hash sig pub);
     Ok verified)
    (fun e => Ok false).

Definition getCopayerHash (name xPubKey requestPubKey : option string) : string :=
  join_pipe [name; xPubKey; requestPubKey].

Definition SCRIPT_TYPES_values : list string :=
  [SCRIPT_TYPES_P2SH; SCRIPT_TYPES_P2PKH].

Definition is_script_type (scriptType : option string) : bool :=
  match scriptType with
  | Some s => includes SCRIPT_TYPES_values s
  | None => false
  end.

Definition deriveAddress (scriptType : option string) (publicKeyRing : list RingEntry)
  (path : string) (m : option Z) (network : string) : result DerivedAddress :=
  checkArgument (is_script_type scriptType);;
  publicKeys ← mapM (fun item => lib (HDPublicKey_deriveChild (ring_xPubKey item) path)) publicKeyRing;
  bitcoreAddress ←
    (if eq_s scriptType (Some SCRIPT_TYPES_P2SH) then
       lib (Address_createMultisig publicKeys m network)
     else if eq_s scriptType (Some SCRIPT_TYPES_P2PKH) then
       checkState (Z.of_nat (length publicKeys) =? 1);;
       k ← lib (publicKeys !! 0%nat);
       lib (Address_fromPublicKey k network)
     else Throw TypeError);
  Ok {| da_address := bitcoreAddress; da_path := path; da_publicKeys := publicKeys |}.

Definition xPubToCopayerId (xpub : string) : string := sha256_hex xpub.

Definition verifyRequestPubKey (requestPubKey : string) (signature : option string) (xPubKey : string) : result bool :=
  pub ← lib (HDPublicKey_deriveChild xPubKey PATHS_REQUEST_KEY_AUTH);
  verifyMessage requestPubKey signature pub.

(** [buildTx], lines 195 to 230: inputs, outputs, fee and change. *)
Definition buildTx_assemble (txp : Txp) : result Transaction :=
  let t := Transaction_new in
  checkState (is_script_type (txp_addressType txp));;
  t ← (if eq_s (txp_addressType txp) (Some SCRIPT_TYPES_P2SH) then
         foldM (fun t i => lib (tx_from_multisig t i (in_publicKeys i) (txp_requiredSignatures txp)))
               (txp_inputs txp) t
       else if eq_s (txp_addressType txp) (Some SCRIPT_TYPES_P2PKH) then
         lib (tx_from t (txp_inputs txp))
       else Ok t);
  t ← (if truthy_s (txp_toAddress txp) && truthy_z (txp_amount txp) && negb (bool_decide (is_Some (txp_outputs txp))) then
         lib (tx_to t (txp_toAddress txp) (default 0 (txp_amount txp)))
       else match txp_outputs txp with
            | Some outputs =>
                foldM (fun t o =>
                         checkState (truthy_s (or_s (o_script o) (o_toAddress o)));;
                         if truthy_s (o_script o) then lib (tx_addOutput t (o_script o) (o_amount o))
                         else lib (tx_to t (o_toAddress o) (o_amount o)))
                      outputs t
            | None => Ok t
            end);
  t ← lib (tx_fee t (txp_fee txp));
  match txp_changeAddress txp with
  | Some changeAddress => lib (tx_change t (addr_address changeAddress))
  | None => Ok t
  end.

(** The filtered order: [_.reject(txp.outputOrder, order >= length)]. *)
Definition filteredOrder (txp : Txp) (count : nat) : list Z :=
  List.filter (fun order => negb (Z.of_nat count <=? order)) (txp_outputOrder txp).

(** The callback handed to [sortOutputs]. *)
Definition sortingFunction {A} (outputOrder : list Z) (outputs : list A) : list (option A) :=
  List.map (fun i => js_index outputs i) outputOrder.

(** [buildTx], lines 232 to 243: the shuffle. *)
Definition buildTx_shuffle (txp : Txp) (t : Transaction) : result Transaction :=
  if (1 <? length (tx_outputs t))%nat then
    let outputOrder := filteredOrder txp (length (tx_outputs t)) in
    checkState (bool_decide (length (tx_outputs t) = length outputOrder));;
    lib (tx_sortOutputs t (sortingFunction outputOrder))
  else Ok t.

Definition totalInputs (txp : Txp) : Z :=
  fold_left (fun memo i => in_satoshis i + memo) (txp_inputs txp) 0.

Definition totalOutputs (t : Transaction) : Z :=
  fold_left (fun memo o => out_satoshis o + memo) (tx_outputs t) 0.

(** [buildTx], lines 245 to 256: the fee bound. *)
Definition buildTx_validate (txp : Txp) (t : Transaction) : result Transaction :=
  checkState (0 <=? totalInputs txp - totalOutputs t);;
  checkState (totalInputs txp - totalOutputs t <=? Defaults.MAX_TX_FEE);;
  Ok t.

Definition buildTx (txp : Txp) : result Transaction :=
  t ← buildTx_assemble txp;
  t ← buildTx_shuffle txp t;
  buildTx_validate txp t.

End WithLibraries.

(** *** Encryption, signing and the proposal hash *)

Section WithSigning.
Context `{Constants} `{CryptoLib} `{SigningLib} `{SjclEncrypt} `{StringifyLib} `{NumberLib}.

(** [_.defaults({ks: 128, iter: 1}, Utils.SJCL)]: a property of the
    literal is kept, a property it lacks is taken from [Utils.SJCL]. *)
Definition encrypt_params (SJCL : gmap string Z) : gmap string Z :=
  {[ "ks" := 128; "iter" := 1 ]} ∪ SJCL.

(** [Utils.SJCL] is a property of the module that callers can assign
    to; it is an argument here. *)
Definition encryptMessage (SJCL : gmap string Z) (message encryptingKey : string) : result string :=
  key ← lib (base64_toBits encryptingKey);
  lib (sjcl_encrypt key message (encrypt_params SJCL)).

Definition signMessage (text : string) (privKey : string + PrivateKey) : result string :=
  checkArgument (truthy_s (Some text));;
  priv ← lib (PrivateKey_new privKey);
  hash ← hashMessage text;
  signed ← lib (ECDSA_sign hash priv);
  Ok signed.

Definition signRequestPubKey (requestPubKey xPrivKey : string) : result string :=
  priv ← lib (HDPrivateKey_deriveChild xPrivKey PATHS_REQUEST_KEY_AUTH);
  signMessage requestPubKey (inr priv).

(** [ToString] of an array element inside [join]. *)
Definition arg_to_string (a : JsArg Header) : string :=
  match a with
  | AUndef => ""
  | AStr s => s
  | ANum z => number_to_string z
  | AObj h => "[object Object]"
  end.

Definition truthy_arg (a : JsArg Header) : bool :=
  match a with
  | AUndef => false
  | AStr s => negb (String.eqb s "")
  | ANum z => negb (z =? 0)
  | AObj _ => true
  end.

(** The parameter at position [i] of a call made with [arguments]. *)
Definition parameter (arguments : list (JsArg Header)) (i : nat) : JsArg Header :=
  default AUndef (arguments !! i).

Definition getOldHash (toAddress amount message payProUrl : JsArg Header) : string :=
  String.concat "|"
    (List.map arg_to_string
       [toAddress; amount;
        (if truthy_arg message then message else AStr "");
        (if truthy_arg payProUrl then payProUrl else AStr "")]).

Definition getProposalHash (arguments : list (JsArg Header)) : string :=
  if (1 <? length arguments)%nat then
    getOldHash (parameter arguments 0) (parameter arguments 1)
               (parameter arguments 2) (parameter arguments 3)
  else Stringify (parameter arguments 0).

End WithSigning.

(** *** Unit scaling *)

Section UnitScaling.
Context `{NumberLib}.

(** [v * coinRatio]: the value is converted to a number first. *)
Definition js_mul (v : JsVal) (coinRatio : Q) : JsVal :=
  match v with
  | VNum q => VNum (q * coinRatio)%Q
  | VStr s =>
      match string_to_number s with
      | Some q => VNum (q * coinRatio)%Q
      | None => VNaN
      end
  | VUndef | VNaN => VNaN
  end.

(** [if (_.isNumber(v)) v = v * coinRatio] *)
Definition scale_number (coinRatio : Q) (v : JsVal) : JsVal :=
  if isNumber v then js_mul v coinRatio else v.

(** [if (v) v = v * coinRatio] *)
Definition scale_truthy (coinRatio : Q) (v : JsVal) : JsVal :=
  if truthy_val v then js_mul v coinRatio else v.

Definition coinRatio (fromSatToCoin toSatToCoin : option Q) : Q :=
  let fromSatToCoin := if negb (truthy_q fromSatToCoin) then inject_Z Defaults.COIN else default 0%Q fromSatToCoin in
  let toSatToCoin := if negb (truthy_q toSatToCoin) then inject_Z Defaults.COIN else default 0%Q toSatToCoin in
  (1 / (fromSatToCoin / toSatToCoin))%Q.

(** The state of [opts] when the call returns; the value returned is
    that same object. *)
Definition convertTxpSatoshiToCoinProtocol (opts : ConvOpts) (fromSatToCoin toSatToCoin : option Q) : ConvOpts :=
  let r := coinRatio fromSatToCoin toSatToCoin in
  {| cv_feeLevel := scale_number r (cv_feeLevel opts);
     cv_feePerKb := scale_number r (cv_feePerKb opts);
     cv_fee := scale_number r (cv_fee opts);
     cv_outputs :=
       (fun outputs => List.map (fun output =>
          {| cvo_toAddress := cvo_toAddress output;
             cvo_amount := scale_number r (cvo_amount output) |}) outputs) <$> cv_outputs opts;
     cv_inputs :=
       (fun inputs => List.map (fun input =>
          {| cvi_txid := cvi_txid input;
             cvi_satoshis := scale_number r (cvi_satoshis input) |}) inputs) <$> cv_inputs opts;
     cv_amount := scale_truthy r (cv_amount opts) |}.

End UnitScaling.

End Utils.

(** ** Verifier *)

Module Verifier.
Section WithLibraries.
Context `{Constants} `{CryptoLib} `{Sjcl} `{TransactionLib}.

(** [checkAddress] is also called with [txp.changeAddress], which can be
    undefined; reading [address.type] then fails. *)
Definition checkAddress (credentials : Credentials) (address : option AddressObj) : result bool :=
  checkState (isComplete credentials);;
  match address with
  | None => Throw TypeError
  | Some address =>
      local ← Utils.deriveAddress (or_s (addr_type address) (cred_addressType credentials))
                (cred_publicKeyRing credentials) (addr_path address)
                (cred_m credentials) (cred_network credentials);
      Ok (String.eqb (da_address local) (addr_address address) &&
          bool_decide (length (difference (da_publicKeys local) (addr_publicKeys address)) = 0%nat))
  end.

(** The array read in [uniq[copayers.xPubKey]]: an array has no
    [xPubKey] property, the read yields undefined. *)
Definition copayers_xPubKey (copayers : list Copayer) : option string := None.

(** One turn of the [_.each] loop of [checkCopayers]; the state is the
    pair of [uniq] and [error]. *)
Definition checkCopayers_each (copayers : list Copayer) (walletPubKey : string)
  (st : gmap string JsNum * bool) (copayer : Copayer) : result (gmap string JsNum * bool) :=
  let '(uniq, error) := st in
  if error then Ok (uniq, error) else
  let '(old, uniq) := post_increment uniq (property_key (copayers_xPubKey copayers)) in
  let error := if truthy_num old then true else error in
  if negb (truthy_s (or_s (cp_encryptedName copayer) (cp_name copayer)))
     || negb (truthy_s (cp_xPubKey copayer))
     || negb (truthy_s (cp_requestPubKey copayer))
     || negb (truthy_s (cp_signature copayer))
  then Ok (uniq, true)
  else
    let hash := Utils.getCopayerHash (or_s (cp_encryptedName copayer) (cp_name copayer))
                  (cp_xPubKey copayer) (cp_requestPubKey copayer) in
    verified ← Utils.verifyMessage hash (cp_signature copayer) walletPubKey;
    if negb verified then Ok (uniq, true) else Ok (uniq, error).

Definition checkCopayers (credentials : Credentials) (copayers : list Copayer) : result bool :=
  checkState (truthy_s (cred_walletPrivKey credentials));;
  walletPubKey ← lib (PrivateKey_toPublicKey (default "" (cred_walletPrivKey credentials)));
  if negb (eq_z (Some (Z.of_nat (length copayers))) (cred_n credentials)) then Ok false else
  st ← foldM (checkCopayers_each copayers walletPubKey) copayers ((∅ : gmap string JsNum), false);
  let error : bool := snd (st : gmap string JsNum * bool) in
  if error then Ok false else
  if negb (includes (List.map cp_xPubKey copayers) (cred_xPubKey credentials)) then Ok false else
  Ok true.

Definition strEqual (str1 str2 : option string) : bool :=
  (negb (truthy_s str1) && negb (truthy_s str2)) || eq_s str1 str2.

(** The body of the [for] loop of [checkProposalCreation] for one pair
    of outputs; [Some b] is [return b], [None] falls through to the next
    turn.  A [catch] block that returns yields [inr] of the returned
    value. *)
Definition checkProposalCreation_output (encryptingKey : string) (o1 o2 : TxpOutput) : result (option bool) :=
  if negb (strEqual (o_toAddress o1) (o_toAddress o2)) then Ok (Some false) else
  if negb (strEqual (o_script o1) (o_script o2)) then Ok (Some false) else
  if negb (o_amount o1 =? o_amount o2) then Ok (Some false) else
  r ← try_catch
        (decryptedMessage ← Utils.decryptMessage (o_message o2) encryptingKey;
         Ok (inl decryptedMessage))
        (fun e => Ok (inr false));
  match r with
  | inr b => Ok (Some b)
  | inl decryptedMessage =>
      if negb (strEqual (o_message o1) decryptedMessage) then Ok (Some false) else Ok None
  end.

Fixpoint checkProposalCreation_loop (encryptingKey : string) (os1 os2 : list TxpOutput) : result (option bool) :=
  match os1, os2 with
  | o1 :: r1, o2 :: r2 =>
      r ← checkProposalCreation_output encryptingKey o1 o2;
      match r with
      | Some b => Ok (Some b)
      | None => checkProposalCreation_loop encryptingKey r1 r2
      end
  | _, _ => Ok None
  end.

Definition checkProposalCreation (args : ProposalArgs) (txp : Txp) (encryptingKey : string) : result bool :=
  match txp_outputs txp with
  | None => Throw TypeError
  | Some outputs =>
      if negb (bool_decide (length outputs = length (args_outputs args))) then Ok false else
      r ← checkProposalCreation_loop encryptingKey outputs (args_outputs args);
      match r with
      | Some b => Ok b
      | None =>
          let changeAddress := addr_address <$> txp_changeAddress txp in
          if truthy_s (args_changeAddress args) && negb (strEqual changeAddress (args_changeAddress args))
          then Ok false else
          if bool_decide (is_Some (args_feePerKb args)) && negb (eq_z (txp_feePerKb txp) (args_feePerKb args))
          then Ok false else
          if negb (strEqual (txp_payProUrl txp) (args_payProUrl args)) then Ok false else
          r ← try_catch
                (decryptedMessage ← Utils.decryptMessage (args_message args) encryptingKey;
                 Ok (inl decryptedMessage))
                (fun e => Ok (inr false));
          match r with
          | inr b => Ok b
          | inl decryptedMessage =>
              if negb (strEqual (txp_message txp) decryptedMessage) then Ok false else
              if truthy_s (args_customData args) && negb (eq_s (txp_customData txp) (args_customData args))
              then Ok false else
              Ok true
          end
      end
  end.

Definition checkTxProposalSignature (credentials : Credentials) (txp : Txp) : result bool :=
  checkArgument (truthy_s (txp_creatorId txp));;
  checkState (isComplete credentials);;
  let creatorKeys :=
    List.find (fun item => eq_s (Some (Utils.xPubToCopayerId (ring_xPubKey item))) (txp_creatorId txp))
              (cred_publicKeyRing credentials) in
  match creatorKeys with
  | None => Ok false
  | Some creatorKeys =>
      signer ←
        (if truthy_s (txp_proposalSignaturePubKey txp) then
           verified ← Utils.verifyRequestPubKey (default "" (txp_proposalSignaturePubKey txp))
                        (txp_proposalSignaturePubKeySig txp) (ring_xPubKey creatorKeys);
           if negb verified then Ok (inr false) else Ok (inl (txp_proposalSignaturePubKey txp))
         else Ok (inl (ring_requestPubKey creatorKeys)));
      match signer with
      | inr b => Ok b
      | inl creatorSigningPubKey =>
          if negb (truthy_s creatorSigningPubKey) then Ok false else
          hash ←
            (if version_ge_3 (txp_version txp) then
               t ← Utils.buildTx txp;
               lib (tx_uncheckedSerialize t)
             else Throw NotSupported);
          verified ← Utils.verifyMessage hash (txp_proposalSignature txp) (default "" creatorSigningPubKey);
          if negb verified then Ok false else
          ok ← checkAddress credentials (txp_changeAddress txp);
          if negb ok then Ok false else
          Ok true
      end
  end.

Definition checkPaypro (txp : Txp) (payproOpts : PayproOpts) : result bool :=
  '(toAddress, amount) ←
    (if version_ge_3 (txp_version txp) then
       outputs ← match txp_outputs txp with Some outputs => Ok outputs | None => Throw TypeError end;
       o ← match outputs !! 0%nat with Some o => Ok o | None => Throw TypeError end;
       Ok (o_toAddress o, txp_amount txp)
     else Ok (txp_toAddress txp, txp_amount txp));
  Ok (eq_s toAddress (pp_toAddress payproOpts) && eq_z amount (pp_amount payproOpts)).

(** The [opts] argument of [checkTxProposal]. *)
Record CheckOpts : Type := {
  opts_paypro : option PayproOpts
}.

Definition checkTxProposal (credentials : Credentials) (txp : Txp) (opts : option CheckOpts) : result bool :=
  let opts := default {| opts_paypro := None |} opts in
  ok ← checkTxProposalSignature credentials txp;
  if negb ok then Ok false else
  match opts_paypro opts with
  | Some paypro =>
      ok ← checkPaypro txp paypro;
      if negb ok then Ok false else Ok true
  | None => Ok true
  end.

End WithLibraries.
End Verifier.

(** ** The totals of [buildTx] as sums of doubles

    [+i.satoshis + memo] adds two doubles.  On integers the sum of two
    doubles is the exact sum rounded to 53 significant bits, a tie
    going to the even neighbour ([round53]; the overflow to Infinity
    past 2^1024 is left out).  [Utils.totalInputs] and
    [Utils.totalOutputs] above are the exact sums. *)

Definition round53 (z : Z) : Z :=
  let a := Z.abs z in
  if a <=? 2 ^ 53 then z else
  let e := Z.log2 a - 52 in
  let q := a / 2 ^ e in
  let r := a mod 2 ^ e in
  let half := 2 ^ (e - 1) in
  let q' := if r <? half then q
            else if half <? r then q + 1
            else if Z.even q then q else q + 1 in
  Z.sgn z * (q' * 2 ^ e).

Definition double_add (x y : Z) : Z := round53 (x + y).

Section DoubleTotals.
Context `{TransactionLib}.

Definition totalInputs_double (txp : Txp) : Z :=
  fold_left (fun memo i => double_add (in_satoshis i) memo) (txp_inputs txp) 0.

Definition totalOutputs_double (t : Transaction) : Z :=
  fold_left (fun memo o => double_add (out_satoshis o) memo) (tx_outputs t) 0.

End DoubleTotals.

(** ** Calls on objects, with the objects as explicit state

    A JavaScript function receives its object arguments by reference
    and could assign to their properties.  The functions that are given
    objects are written out a second time here in a state monad whose
    state is the tuple of those objects: a property read is [st_gets],
    an assignment is [st_modify], a call that hands on a part of the
    state runs under [st_zoom], and a computation on values that were
    read, or a call into a collaborator, is [st_lift].  The
    collaborators are taken not to assign to what they are handed.
    Strings and numbers are immutable values; the functions that take
    nothing else and read no property of the module (decryption,
    hashing, verification of a signature, the copayer hash and id)
    have no stateful form. *)

Definition St (S A : Type) : Type := S -> result A * S.

Definition st_ret {S A} (a : A) : St S A := fun s => (Ok a, s).

Definition st_bind {S A B} (m : St S A) (k : A -> St S B) : St S B :=
  fun s =>
    match m s with
    | (Ok a, s') => k a s'
    | (Throw e, s') => (Throw e, s')
    end.

Definition st_gets {S A} (f : S -> A) : St S A := fun s => (Ok (f s), s).

Definition st_modify {S} (f : S -> S) : St S unit := fun s => (Ok tt, f s).

Definition st_lift {S A} (r : result A) : St S A := fun s => (r, s).

(** A call that is handed the part [get s] of the state; what the
    callee leaves there is put back with [set]. *)
Definition st_zoom {S S' A} (get : S -> S') (set : S' -> S -> S) (m : St S' A) : St S A :=
  fun s => let '(r, s') := m (get s) in (r, set s' s).

#[global] Instance st_mret {S} : MRet (St S) := fun A a => st_ret a.
#[global] Instance st_mbind {S} : MBind (St S) := fun A B k m => st_bind m k.

(** Setters of the properties that are handed on or assigned to. *)
Definition set_publicKeyRing (ring : list RingEntry) (c : Credentials) : Credentials :=
  {| cred_network := cred_network c;
     cred_addressType := cred_addressType c;
     cred_m := cred_m c;
     cred_n := cred_n c;
     cred_publicKeyRing := ring;
     cred_walletPrivKey := cred_walletPrivKey c;
     cred_xPubKey := cred_xPubKey c |}.

Definition set_changeAddress (changeAddress : option AddressObj) (p : Txp) : Txp :=
  {| txp_version := txp_version p;
     txp_addressType := txp_addressType p;
     txp_inputs := txp_inputs p;
     txp_outputs := txp_outputs p;
     txp_toAddress := txp_toAddress p;
     txp_amount := txp_amount p;
     txp_fee := txp_fee p;
     txp_feePerKb := txp_feePerKb p;
     txp_requiredSignatures := txp_requiredSignatures p;
     txp_changeAddress := changeAddress;
     txp_outputOrder := txp_outputOrder p;
     txp_creatorId := txp_creatorId p;
     txp_proposalSignature := txp_proposalSignature p;
     txp_proposalSignaturePubKey := txp_proposalSignaturePubKey p;
     txp_proposalSignaturePubKeySig := txp_proposalSignaturePubKeySig p;
     txp_message := txp_message p;
     txp_payProUrl := txp_payProUrl p;
     txp_customData := txp_customData p |}.

Definition set_feeLevel (v : JsVal) (o : ConvOpts) : ConvOpts :=
  {| cv_feeLevel := v; cv_feePerKb := cv_feePerKb o; cv_fee := cv_fee o;
     cv_outputs := cv_outputs o; cv_inputs := cv_inputs o; cv_amount := cv_amount o |}.

Definition set_feePerKb (v : JsVal) (o : ConvOpts) : ConvOpts :=
  {| cv_feeLevel := cv_feeLevel o; cv_feePerKb := v; cv_fee := cv_fee o;
     cv_outputs := cv_outputs o; cv_inputs := cv_inputs o; cv_amount := cv_amount o |}.

Definition set_fee (v : JsVal) (o : ConvOpts) : ConvOpts :=
  {| cv_feeLevel := cv_feeLevel o; cv_feePerKb := cv_feePerKb o; cv_fee := v;
     cv_outputs := cv_outputs o; cv_inputs := cv_inputs o; cv_amount := cv_amount o |}.

Definition set_conv_outputs (v : option (list ConvOutput)) (o : ConvOpts) : ConvOpts :=
  {| cv_feeLevel := cv_feeLevel o; cv_feePerKb := cv_feePerKb o; cv_fee := cv_fee o;
     cv_outputs := v; cv_inputs := cv_inputs o; cv_amount := cv_amount o |}.

Definition set_conv_inputs (v : option (list ConvInput)) (o : ConvOpts) : ConvOpts :=
  {| cv_feeLevel := cv_feeLevel o; cv_feePerKb := cv_feePerKb o; cv_fee := cv_fee o;
     cv_outputs := cv_outputs o; cv_inputs := v; cv_amount := cv_amount o |}.

Definition set_amount (v : JsVal) (o : ConvOpts) : ConvOpts :=
  {| cv_feeLevel := cv_feeLevel o; cv_feePerKb := cv_feePerKb o; cv_fee := cv_fee o;
     cv_outputs := cv_outputs o; cv_inputs := cv_inputs o; cv_amount := v |}.

(** The [opts] argument of [formatAmount]. *)
Record FormatOpts : Type := {
  fmt_fullPrecision : bool;
  fmt_thousandsSeparator : option string;
  fmt_decimalSeparator : option string
}.

(** What [formatAmount] computes on numbers and strings: the table
    [Constants.UNITS], and its two local functions; [true] is the full
    precision of a unit. *)
Class FormatLib : Type := {
  UnitInfo : Type;
  (* Constants.UNITS[unit] *)
  UNITS : string -> option UnitInfo;
  (* clipDecimals(satoshis / u.toSatoshis, u[precision].maxDecimals).toFixed(u[precision].maxDecimals) *)
  clipDecimals_toFixed : Q -> UnitInfo -> bool -> string;
  (* addSeparators(amount, thousands, decimal, u[precision].minDecimals) *)
  addSeparators : string -> string -> string -> UnitInfo -> bool -> string
}.

Module Stateful.
Section WithLibraries.
Context `{Constants} `{CryptoLib} `{Sjcl} `{TransactionLib} `{SigningLib} `{!SjclEncrypt} `{StringifyLib}
        `{NumberLib} `{FormatLib}.

(** [deriveAddress(scriptType, publicKeyRing, path, m, network)]: the
    state is the ring. *)
Definition deriveAddress (scriptType : option string) (path : string) (m : option Z) (network : string)
  : St (list RingEntry) DerivedAddress :=
  st_lift (checkArgument (Utils.is_script_type scriptType));;
  publicKeyRing ← st_gets id;
  publicKeys ← st_lift (mapM (fun item => lib (HDPublicKey_deriveChild (ring_xPubKey item) path)) publicKeyRing);
  bitcoreAddress ← st_lift
    (if eq_s scriptType (Some SCRIPT_TYPES_P2SH) then
       lib (Address_createMultisig publicKeys m network)
     else if eq_s scriptType (Some SCRIPT_TYPES_P2PKH) then
       checkState (Z.of_nat (length publicKeys) =? 1);;
       k ← lib (publicKeys !! 0%nat);
       lib (Address_fromPublicKey k network)
     else Throw TypeError);
  st_ret {| da_address := bitcoreAddress; da_path := path; da_publicKeys := publicKeys |}.

(** [checkAddress(credentials, address)] *)
Definition checkAddress : St (Credentials * option AddressObj) bool :=
  credentials ← st_gets fst;
  st_lift (checkState (isComplete credentials));;
  address ← st_gets snd;
  match address with
  | None => st_lift (Throw TypeError)
  | Some address =>
      local ← st_zoom (fun s => cred_publicKeyRing (fst s))
                 (fun ring s => (set_publicKeyRing ring (fst s), snd s))
                 (deriveAddress (or_s (addr_type address) (cred_addressType credentials))
                    (addr_path address) (cred_m credentials) (cred_network credentials));
      st_ret (String.eqb (da_address local) (addr_address address) &&
              bool_decide (length (difference (da_publicKeys local) (addr_publicKeys address)) = 0%nat))
  end.

(** [checkCopayers(credentials, copayers)] *)
Definition checkCopayers : St (Credentials * list Copayer) bool :=
  credentials ← st_gets fst;
  st_lift (checkState (truthy_s (cred_walletPrivKey credentials)));;
  walletPubKey ← st_lift (lib (PrivateKey_toPublicKey (default "" (cred_walletPrivKey credentials))));
  copayers ← st_gets snd;
  if negb (eq_z (Some (Z.of_nat (length copayers))) (cred_n credentials)) then st_ret false else
  st ← st_lift (foldM (Verifier.checkCopayers_each copayers walletPubKey) copayers
                  ((∅ : gmap string JsNum), false));
  let error : bool := snd (st : gmap string JsNum * bool) in
  if error then st_ret false else
  if negb (includes (List.map cp_xPubKey copayers) (cred_xPubKey credentials)) then st_ret false else
  st_ret true.

(** [checkProposalCreation(args, txp, encryptingKey)] *)
Definition checkProposalCreation (encryptingKey : string) : St (ProposalArgs * Txp) bool :=
  txp ← st_gets snd;
  args ← st_gets fst;
  match txp_outputs txp with
  | None => st_lift (Throw TypeError)
  | Some outputs =>
      if negb (bool_decide (length outputs = length (args_outputs args))) then st_ret false else
      r ← st_lift (Verifier.checkProposalCreation_loop encryptingKey outputs (args_outputs args));
      match r with
      | Some b => st_ret b
      | None =>
          let changeAddress := addr_address <$> txp_changeAddress txp in
          if truthy_s (args_changeAddress args) &&
             negb (Verifier.strEqual changeAddress (args_changeAddress args))
          then st_ret false else
          if bool_decide (is_Some (args_feePerKb args)) && negb (eq_z (txp_feePerKb txp) (args_feePerKb args))
          then st_ret false else
          if negb (Verifier.strEqual (txp_payProUrl txp) (args_payProUrl args)) then st_ret false else
          r ← st_lift (try_catch
                         (decryptedMessage ← Utils.decryptMessage (args_message args) encryptingKey;
                          Ok (inl decryptedMessage))
                         (fun e => Ok (inr false)));
          match r with
          | inr b => st_ret b
          | inl decryptedMessage =>
              if negb (Verifier.strEqual (txp_message txp) decryptedMessage) then st_ret false else
              if truthy_s (args_customData args) &&
                 negb (eq_s (txp_customData txp) (args_customData args))
              then st_ret false else
              st_ret true
          end
      end
  end.

(** [buildTx(txp)]: the transaction under construction is a local
    object. *)
Definition buildTx : St Txp Transaction :=
  txp ← st_gets id;
  t ← st_lift (Utils.buildTx_assemble txp);
  t ← st_lift (Utils.buildTx_shuffle txp t);
  st_lift (Utils.buildTx_validate txp t).

(** [checkTxProposalSignature(credentials, txp)] *)
Definition checkTxProposalSignature : St (Credentials * Txp) bool :=
  txp ← st_gets snd;
  st_lift (checkArgument (truthy_s (txp_creatorId txp)));;
  credentials ← st_gets fst;
  st_lift (checkState (isComplete credentials));;
  let creatorKeys :=
    List.find (fun item => eq_s (Some (Utils.xPubToCopayerId (ring_xPubKey item))) (txp_creatorId txp))
              (cred_publicKeyRing credentials) in
  match creatorKeys with
  | None => st_ret false
  | Some creatorKeys =>
      signer ←
        (if truthy_s (txp_proposalSignaturePubKey txp) then
           verified ← st_lift (Utils.verifyRequestPubKey (default "" (txp_proposalSignaturePubKey txp))
                                 (txp_proposalSignaturePubKeySig txp) (ring_xPubKey creatorKeys));
           if negb verified then st_ret (inr false) else st_ret (inl (txp_proposalSignaturePubKey txp))
         else st_ret (inl (ring_requestPubKey creatorKeys)));
      match signer with
      | inr b => st_ret b
      | inl creatorSigningPubKey =>
          if negb (truthy_s creatorSigningPubKey) then st_ret false else
          hash ←
            (if version_ge_3 (txp_version txp) then
               t ← st_zoom snd (fun txp' s => (fst s, txp')) buildTx;
               st_lift (lib (tx_uncheckedSerialize t))
             else st_lift (Throw NotSupported));
          verified ← st_lift (Utils.verifyMessage hash (txp_proposalSignature txp)
                                (default "" creatorSigningPubKey));
          if negb verified then st_ret false else
          ok ← st_zoom (fun s => (fst s, txp_changeAddress (snd s)))
                 (fun ca s => (fst ca, set_changeAddress (snd ca) (snd s)))
                 checkAddress;
          if negb ok then st_ret false else
          st_ret true
      end
  end.

(** [checkPaypro(txp, payproOpts)] *)
Definition checkPaypro : St (Txp * PayproOpts) bool :=
  txp ← st_gets fst;
  payproOpts ← st_gets snd;
  '(toAddress, amount) ← st_lift
    (if version_ge_3 (txp_version txp) then
       outputs ← match txp_outputs txp with Some outputs => Ok outputs | None => Throw TypeError end;
       o ← match outputs !! 0%nat with Some o => Ok o | None => Throw TypeError end;
       Ok (o_toAddress o, txp_amount txp)
     else Ok (txp_toAddress txp, txp_amount txp));
  st_ret (eq_s toAddress (pp_toAddress payproOpts) && eq_z amount (pp_amount payproOpts)).

(** [checkTxProposal(credentials, txp, opts)]: [opts = opts || {}]
    rebinds the local variable. *)
Definition checkTxProposal : St ((Credentials * Txp) * option Verifier.CheckOpts) bool :=
  opts ← st_gets (fun s => default {| Verifier.opts_paypro := None |} (snd s));
  ok ← st_zoom fst (fun ct s => (ct, snd s)) checkTxProposalSignature;
  if negb ok then st_ret false else
  match Verifier.opts_paypro opts with
  | Some paypro =>
      ok ← st_zoom (fun s => (snd (fst s), paypro))
             (fun tp s => ((fst (fst s), fst tp), Some {| Verifier.opts_paypro := Some (snd tp) |}))
             checkPaypro;
      if negb ok then st_ret false else st_ret true
  | None => st_ret true
  end.

(** [getProposalHash(...)]: the state is the list of arguments, among
    them the header object. *)
Definition getProposalHash : St (list (JsArg Header)) string :=
  arguments ← st_gets id;
  st_ret (Utils.getProposalHash arguments).

(** [encryptMessage(message, encryptingKey)]: the state is the module
    property [Utils.SJCL]; [_.defaults] assigns to its first argument,
    the object literal, and reads the second. *)
Definition encryptMessage (message encryptingKey : string) : St (gmap string Z) string :=
  key ← st_lift (lib (base64_toBits encryptingKey));
  SJCL ← st_gets id;
  st_lift (lib (sjcl_encrypt key message (Utils.encrypt_params SJCL))).

(** [signMessage(text, privKey)]: the key can be a key object. *)
Definition signMessage (text : string) : St (string + PrivateKey) string :=
  st_lift (checkArgument (truthy_s (Some text)));;
  privKey ← st_gets id;
  priv ← st_lift (lib (PrivateKey_new privKey));
  hash ← st_lift (Utils.hashMessage text);
  signed ← st_lift (lib (ECDSA_sign hash priv));
  st_ret signed.

(** [formatAmount(satoshis, unit, opts)]: [satoshis] is a number, and
    [opts = opts || {}] rebinds the local variable. *)
Definition formatAmount (satoshis : Q) (unit : string) : St (option FormatOpts) string :=
  st_lift (checkArgument (bool_decide (is_Some (UNITS unit))));;
  opts ← st_gets (default {| fmt_fullPrecision := false;
                             fmt_thousandsSeparator := None;
                             fmt_decimalSeparator := None |});
  u ← st_lift (match UNITS unit with Some u => Ok u | None => Throw TypeError end);
  let precision := fmt_fullPrecision opts in
  let amount := clipDecimals_toFixed satoshis u precision in
  st_ret (addSeparators amount
            (default "" (or_s (fmt_thousandsSeparator opts) (Some ",")))
            (default "" (or_s (fmt_decimalSeparator opts) (Some ".")))
            u precision).

(** [convertTxpSatoshiToCoinProtocol(opts, fromSatToCoin, toSatToCoin)]:
    the assignments to the properties of [opts], in the order of the
    source; the value returned is the object itself. *)
Definition convertTxpSatoshiToCoinProtocol (fromSatToCoin toSatToCoin : option Q) : St ConvOpts ConvOpts :=
  let coinRatio := Utils.coinRatio fromSatToCoin toSatToCoin in
  feeLevel ← st_gets cv_feeLevel;
  (if isNumber feeLevel then st_modify (set_feeLevel (Utils.js_mul feeLevel coinRatio)) else st_ret tt);;
  feePerKb ← st_gets cv_feePerKb;
  (if isNumber feePerKb then st_modify (set_feePerKb (Utils.js_mul feePerKb coinRatio)) else st_ret tt);;
  fee ← st_gets cv_fee;
  (if isNumber fee then st_modify (set_fee (Utils.js_mul fee coinRatio)) else st_ret tt);;
  outputs ← st_gets cv_outputs;
  match outputs with
  | Some outputs =>
      st_modify (set_conv_outputs (Some (List.map (fun output =>
        {| cvo_toAddress := cvo_toAddress output;
           cvo_amount := if isNumber (cvo_amount output) then Utils.js_mul (cvo_amount output) coinRatio
                         else cvo_amount output |}) outputs)))
  | None => st_ret tt
  end;;
  inputs ← st_gets cv_inputs;
  match inputs with
  | Some inputs =>
      st_modify (set_conv_inputs (Some (List.map (fun input =>
        {| cvi_txid := cvi_txid input;
           cvi_satoshis := if isNumber (cvi_satoshis input) then Utils.js_mul (cvi_satoshis input) coinRatio
                           else cvi_satoshis input |}) inputs)))
  | None => st_ret tt
  end;;
  amount ← st_gets cv_amount;
  (if truthy_val amount then st_modify (set_amount (Utils.js_mul amount coinRatio)) else st_ret tt);;
  st_gets id.

End WithLibraries.
End Stateful.

(** ** A reference instance of the collaborators

    Small executable stand-ins for the libraries, on which the functions
    above can be run.  Keys, signatures and addresses are tagged strings;
    the transaction container keeps the lists it is given. *)

Module Reference.

#[export] Instance constants : Constants := {|
  SCRIPT_TYPES_P2SH := "P2SH";
  SCRIPT_TYPES_P2PKH := "P2PKH";
  PATHS_REQUEST_KEY_AUTH := "m/1'/0"
|}.

Definition tagged (tag s : string) : option string :=
  if String.prefix tag s then Some s else None.

#[export] Instance crypto : CryptoLib := {|
  PublicKey := string;
  Signature := string;
  PublicKey_new := tagged "pub:";
  PrivateKey_toPublicKey := fun s => (fun _ => "pub:" +:+ s) <$> tagged "priv:" s;
  Signature_fromString := tagged "sig:";
  ECDSA_verify := fun hash sig pub =>
    Some (String.eqb sig ("sig:" +:+ string_of_list_ascii hash +:+ "@" +:+ pub));
  Hash_sha256sha256 := fun buf => buf;
  HDPublicKey_deriveChild := fun xpub path => (fun _ => "pub:" +:+ xpub +:+ "/" +:+ path) <$> tagged "xpub" xpub;
  Address_createMultisig := fun publicKeys m network => Some ("3" +:+ String.concat "," publicKeys);
  Address_fromPublicKey := fun publicKey network => Some ("1" +:+ publicKey)
|}.

#[export] Instance sjcl : Sjcl := {|
  Bits := string;
  base64_toBits := fun s => Some s;
  sjcl_decrypt := fun key c =>
    let tag := "enc(" +:+ key +:+ "):" in
    if String.prefix tag c then Some (String.substring (String.length tag) (String.length c - String.length tag) c)
    else None;
  sha256_hex := fun s => "id(" +:+ s +:+ ")"
|}.

(** The signature the reference [ECDSA_verify] accepts for a text under
    a public key. *)
Definition sign (text pub : string) : string :=
  "sig:" +:+ string_of_list_ascii (rev (list_ascii_of_string text)) +:+ "@" +:+ pub.

Record RefTx : Type := {
  rt_inputs : list TxpInput;
  rt_outputs : list (string * Z);
  rt_fee : option Z
}.

Definition add_output (t : RefTx) (o : string * Z) : RefTx :=
  {| rt_inputs := rt_inputs t; rt_outputs := rt_outputs t ++ [o]; rt_fee := rt_fee t |}.

Definition unspent (t : RefTx) : Z :=
  fold_left (fun acc i => acc + in_satoshis i) (rt_inputs t) 0
  - fold_left (fun acc o => acc + snd o) (rt_outputs t) 0.

(** The order is accepted when it lists every output once. *)
Definition sort_outputs (t : RefTx) (f : list (string * Z) -> list (option (string * Z))) : option RefTx :=
  let sorted := omap id (f (rt_outputs t)) in
  if bool_decide (length (f (rt_outputs t)) = length (rt_outputs t)) &&
     bool_decide (sorted ≡ₚ rt_outputs t)
  then Some {| rt_inputs := rt_inputs t; rt_outputs := sorted; rt_fee := rt_fee t |}
  else None.

#[export] Instance transactions : TransactionLib := {|
  Transaction := RefTx;
  Output := string * Z;
  Transaction_new := {| rt_inputs := []; rt_outputs := []; rt_fee := None |};
  tx_from_multisig := fun t i publicKeys threshold =>
    Some {| rt_inputs := rt_inputs t ++ [i]; rt_outputs := rt_outputs t; rt_fee := rt_fee t |};
  tx_from := fun t utxos =>
    Some {| rt_inputs := rt_inputs t ++ utxos; rt_outputs := rt_outputs t; rt_fee := rt_fee t |};
  tx_to := fun t address amount => (fun a => add_output t (a, amount)) <$> address;
  tx_addOutput := fun t script amount => (fun s => add_output t (s, amount)) <$> script;
  tx_fee := fun t amount =>
    Some {| rt_inputs := rt_inputs t; rt_outputs := rt_outputs t; rt_fee := amount |};
  tx_change := fun t address =>
    let changeAmount := unspent t - default 0 (rt_fee t) in
    Some (if 0 <? changeAmount then add_output t (address, changeAmount) else t);
  tx_sortOutputs := sort_outputs;
  tx_outputs := rt_outputs;
  out_satoshis := snd;
  tx_uncheckedSerialize := fun t =>
    Some (String.concat ";" (List.map (fun o => fst o +:+ "=" +:+ pretty (snd o)) (rt_outputs t)))
|}.

(** The key pair of the private key string ["priv:" ++ k] has the
    public key string ["pub:priv:" ++ k]; the private child of
    ["xprv" ++ r] at a path is the key whose public key is the public
    child of ["xpub" ++ r] at that path. *)
#[export] Instance signing : SigningLib := {|
  PrivateKey := string;
  PrivateKey_new := fun k => match k with inl s => tagged "priv:" s | inr priv => Some priv end;
  ECDSA_sign := fun hash priv => Some ("sig:" +:+ string_of_list_ascii hash +:+ "@pub:" +:+ priv);
  HDPrivateKey_deriveChild := fun xpriv path =>
    (fun _ => "xpub" +:+ String.substring 4 (String.length xpriv - 4) xpriv +:+ "/" +:+ path) <$> tagged "xprv" xpriv
|}.

Definition ref_encrypt (key message : string) (params : gmap string Z) : option string :=
  Some ("enc(" +:+ key +:+ "):" +:+ message).

#[export] Instance sjcl_encryption : @SjclEncrypt sjcl := {|
  sjcl_encrypt := ref_encrypt
|}.

(** Decimal digits only. *)
Fixpoint digits_to_N (s : string) (acc : N) : option N :=
  match s with
  | EmptyString => Some acc
  | String c r =>
      match Ascii.is_nat c with
      | Some d => digits_to_N r (acc * 10 + N.of_nat d)%N
      | None => None
      end
  end.

(** The decimal form of an integer, which is what JavaScript prints
    below 10^21, and the number that a string of digits denotes. *)
#[export] Instance numbers : NumberLib := {|
  number_to_string := pretty;
  string_to_number := fun s => (fun n => inject_Z (Z.of_N n)) <$> digits_to_N s 0%N
|}.

#[export] Instance stringify : StringifyLib := {|
  Header := list (string * string);
  Stringify := fun a =>
    match a with
    | AObj h => "{" +:+ String.concat "," (List.map (fun kv => fst kv +:+ ":" +:+ snd kv) h) +:+ "}"
    | AStr s => s
    | ANum z => pretty z
    | AUndef => "undefined"
    end
|}.

End Reference.

(** ** Sample data *)

Module Sample.
Import Reference.

Definition utxo (satoshis : Z) : TxpInput :=
  {| in_txid := "aa"; in_vout := 0; in_satoshis := satoshis; in_publicKeys := [] |}.

Definition pay (address : string) (amount : Z) : TxpOutput :=
  {| o_toAddress := Some address; o_script := None; o_amount := amount; o_message := None |}.

(** One input of 100000000 and two outputs worth 99990000 in all, with
    a given version, output order, message and signature. *)
Definition proposal (version : Z) (outputOrder : list Z) (message proposalSignature : option string) : Txp :=
  {| txp_version := Some version;
     txp_addressType := Some "P2PKH";
     txp_inputs := [utxo 100000000];
     txp_outputs := Some [pay "addrA" 50000000; pay "addrB" 49990000];
     txp_toAddress := None;
     txp_amount := Some 99990000;
     txp_fee := Some 10000;
     txp_feePerKb := Some 10000;
     txp_requiredSignatures := 1;
     txp_changeAddress := None;
     txp_outputOrder := outputOrder;
     txp_creatorId := Some "id(xpubA)";
     txp_proposalSignature := proposalSignature;
     txp_proposalSignaturePubKey := None;
     txp_proposalSignaturePubKeySig := None;
     txp_message := message;
     txp_payProUrl := None;
     txp_customData := None |}.

(** The order swaps the two outputs. *)
Definition txp : Txp := proposal 3 [1; 0] None None.

(** The same proposal with a truncated output order. *)
Definition txp_truncated : Txp := proposal 3 [0] None None.

(** The same proposal carrying a message. *)
Definition txp_hello : Txp := proposal 3 [1; 0] (Some "hello") None.

(** The same proposal in the legacy format. *)
Definition txp_legacy : Txp := proposal 2 [1; 0] None None.

(** Creation options whose message is the plain text itself, which sjcl
    cannot decrypt. *)
Definition args_hello : ProposalArgs :=
  {| args_outputs := [pay "addrA" 50000000; pay "addrB" 49990000];
     args_changeAddress := None;
     args_feePerKb := Some 10000;
     args_payProUrl := None;
     args_message := Some "hello";
     args_customData := None |}.

(** The transaction after inputs, outputs, fee and change. *)
Definition assembled : @Transaction transactions :=
  {| rt_inputs := [utxo 100000000];
     rt_outputs := [("addrA", 50000000); ("addrB", 49990000)];
     rt_fee := Some 10000 |}.

Definition shuffled : @Transaction transactions :=
  {| rt_inputs := [utxo 100000000];
     rt_outputs := [("addrB", 49990000); ("addrA", 50000000)];
     rt_fee := Some 10000 |}.

(** A 2-of-3 wallet. *)
Definition credentials : Credentials :=
  {| cred_network := "livenet";
     cred_addressType := Some "P2SH";
     cred_m := Some 2;
     cred_n := Some 3;
     cred_publicKeyRing :=
       [ {| ring_xPubKey := "xpubA"; ring_requestPubKey := Some "pub:reqA" |};
         {| ring_xPubKey := "xpubB"; ring_requestPubKey := Some "pub:reqB" |};
         {| ring_xPubKey := "xpubC"; ring_requestPubKey := Some "pub:reqC" |} ];
     cred_walletPrivKey := Some "priv:w";
     cred_xPubKey := Some "xpubA" |}.

(** What [deriveAddress] yields for the wallet at path m/0/1. *)
Definition derived : DerivedAddress :=
  {| da_address := "3pub:xpubA/m/0/1,pub:xpubB/m/0/1,pub:xpubC/m/0/1";
     da_path := "m/0/1";
     da_publicKeys := ["pub:xpubA/m/0/1"; "pub:xpubB/m/0/1"; "pub:xpubC/m/0/1"] |}.

(** The address object of that address, and the same object with one
    more public key in its list. *)
Definition address : AddressObj :=
  {| addr_type := Some "P2SH";
     addr_path := "m/0/1";
     addr_address := da_address derived;
     addr_publicKeys := da_publicKeys derived |}.

Definition address_extra_key : AddressObj :=
  {| addr_type := Some "P2SH";
     addr_path := "m/0/1";
     addr_address := da_address derived;
     addr_publicKeys := da_publicKeys derived ++ ["pub:other"] |}.

(** A roster entry signed with the wallet key. *)
Definition copayer (name xPubKey requestPubKey : string) : Copayer :=
  {| cp_name := Some name;
     cp_encryptedName := None;
     cp_xPubKey := Some xPubKey;
     cp_requestPubKey := Some requestPubKey;
     cp_signature := Some (sign (name +:+ "|" +:+ xPubKey +:+ "|" +:+ requestPubKey) "pub:priv:w") |}.

Definition roster : list Copayer :=
  [copayer "alice" "xpubA" "pub:reqA"; copayer "bob" "xpubB" "pub:reqB"; copayer "carol" "xpubC" "pub:reqC"].

(** The third entry repeats the extended public key of the second. *)
Definition roster_repeated : list Copayer :=
  [copayer "alice" "xpubA" "pub:reqA"; copayer "bob" "xpubB" "pub:reqB"; copayer "carol" "xpubB" "pub:reqC"].

(** Options handed to the unit scaling, and the same options with the
    amount given as a string. *)
Definition conv_opts : ConvOpts :=
  {| cv_feeLevel := VStr "normal";
     cv_feePerKb := VUndef;
     cv_fee := VNum (inject_Z 10000);
     cv_outputs := Some [ {| cvo_toAddress := Some "addrA"; cvo_amount := VNum (inject_Z 50000000) |} ];
     cv_inputs := None;
     cv_amount := VStr "57" |}.

(** A roster entry without a signature. *)
Definition copayer_unsigned : Copayer :=
  {| cp_name := Some "mallory";
     cp_encryptedName := None;
     cp_xPubKey := Some "xpubM";
     cp_requestPubKey := Some "pub:reqM";
     cp_signature := None |}.

(** A proposal of the wallet with a change address, signed by the
    creator's request key over the serialization of its transaction. *)
Definition txp_signed : Txp :=
  {| txp_version := Some 3;
     txp_addressType := Some "P2SH";
     txp_inputs := [utxo 100000000];
     txp_outputs := Some [pay "addrA" 50000000];
     txp_toAddress := None;
     txp_amount := Some 50000000;
     txp_fee := Some 10000;
     txp_feePerKb := Some 10000;
     txp_requiredSignatures := 2;
     txp_changeAddress := Some address;
     txp_outputOrder := [1; 0; 7];
     txp_creatorId := Some "id(xpubA)";
     txp_proposalSignature :=
       Some (sign ("3pub:xpubA/m/0/1,pub:xpubB/m/0/1,pub:xpubC/m/0/1=49990000;addrA=50000000") "pub:reqA");
     txp_proposalSignaturePubKey := None;
     txp_proposalSignaturePubKeySig := None;
     txp_message := None;
     txp_payProUrl := None;
     txp_customData := None |}.

(** An output with a script and a destination, and the same output
    with another destination and a message. *)
Definition pay_script : TxpOutput :=
  {| o_toAddress := Some "addrA"; o_script := Some "OP_RETURN"; o_amount := 50000000; o_message := None |}.

Definition pay_script_relabelled : TxpOutput :=
  {| o_toAddress := Some "addrZ"; o_script := Some "OP_RETURN"; o_amount := 50000000;
     o_message := Some "hello" |}.

(** An output with neither a script nor a destination. *)
Definition pay_nowhere : TxpOutput :=
  {| o_toAddress := None; o_script := None; o_amount := 50000000; o_message := None |}.

(** The sample proposal with a negative index in its output order. *)
Definition txp_negative : Txp := proposal 3 [-1; 0] None None.


(** A payment-protocol target naming the first output of [txp] and its
    amount, and one naming the proposal's [amount] field. *)
Definition paypro_first_output : PayproOpts :=
  {| pp_toAddress := Some "addrA"; pp_amount := Some 50000000 |}.

Definition paypro_total : PayproOpts :=
  {| pp_toAddress := Some "addrA"; pp_amount := Some 99990000 |}.

End Sample.

(** ** Predicates used in the statements *)

Section Predicates.
Context `{Constants} `{CryptoLib} `{Sjcl} `{TransactionLib}.

(** The fee bound enforced at the end of [buildTx]. *)
Definition fee_in_bounds (txp : Txp) (t : Transaction) : Prop :=
  0 ≤ Utils.totalInputs txp - Utils.totalOutputs t ≤ Defaults.MAX_TX_FEE.

(** sjcl produces no plaintext for this ciphertext under this key: the
    key does not decode, the ciphertext is absent, or [sjcl.decrypt]
    throws. *)
Definition decryption_fails (cyphertextJson : option string) (encryptingKey : string) : Prop :=
  ∀ key c, base64_toBits encryptingKey = Some key → cyphertextJson = Some c → sjcl_decrypt key c = None.

(** The ring entry of the proposal's creator, as [checkTxProposalSignature]
    looks it up. *)
Definition creator_entry (credentials : Credentials) (txp : Txp) : option RingEntry :=
  List.find (fun item => eq_s (Some (Utils.xPubToCopayerId (ring_xPubKey item))) (txp_creatorId txp))
            (cred_publicKeyRing credentials).

(** The creator is in the ring and [key] is the signing key of the
    proposal: the proposal's own key when it carries one that the
    creator's extended key vouches for, the creator's request key when
    it carries none. *)
Definition signer_established (credentials : Credentials) (txp : Txp) (key : string) : Prop :=
  ∃ creatorKeys,
    creator_entry credentials txp = Some creatorKeys ∧
    key ≠ "" ∧
    ((truthy_s (txp_proposalSignaturePubKey txp) = true ∧
      Utils.verifyRequestPubKey (default "" (txp_proposalSignaturePubKey txp))
        (txp_proposalSignaturePubKeySig txp) (ring_xPubKey creatorKeys) = Ok true ∧
      txp_proposalSignaturePubKey txp = Some key) ∨
     (truthy_s (txp_proposalSignaturePubKey txp) = false ∧
      ring_requestPubKey creatorKeys = Some key)).

(** Every slot of [uniq] holds NaN. *)
Definition all_NaN (uniq : gmap string JsNum) : Prop :=
  ∀ k v, uniq !! k = Some v → v = JNaN.

(** The roster entry has its fields and the wallet key signed it. *)
Definition well_signed (walletPubKey : string) (copayer : Copayer) : Prop :=
  truthy_s (or_s (cp_encryptedName copayer) (cp_name copayer)) = true ∧
  truthy_s (cp_xPubKey copayer) = true ∧
  truthy_s (cp_requestPubKey copayer) = true ∧
  truthy_s (cp_signature copayer) = true ∧
  Utils.verifyMessage
    (Utils.getCopayerHash (or_s (cp_encryptedName copayer) (cp_name copayer))
       (cp_xPubKey copayer) (cp_requestPubKey copayer))
    (cp_signature copayer) walletPubKey = Ok true.

(** The loop of [checkCopayers] sets its error flag at this entry: a
    field is missing, or the wallet key did not sign it. *)
Definition rejected_entry (walletPubKey : string) (copayer : Copayer) : Prop :=
  truthy_s (or_s (cp_encryptedName copayer) (cp_name copayer)) = false ∨
  truthy_s (cp_xPubKey copayer) = false ∨
  truthy_s (cp_requestPubKey copayer) = false ∨
  truthy_s (cp_signature copayer) = false ∨
  Utils.verifyMessage
    (Utils.getCopayerHash (or_s (cp_encryptedName copayer) (cp_name copayer))
       (cp_xPubKey copayer) (cp_requestPubKey copayer))
    (cp_signature copayer) walletPubKey = Ok false.

(** The stored output [o1] agrees with the submitted output [o2]:
    destination, script and amount, and the stored message against what
    [decryptMessage] yields for the submitted one. *)
Definition output_matches (encryptingKey : string) (o1 o2 : TxpOutput) : Prop :=
  Verifier.strEqual (o_toAddress o1) (o_toAddress o2) = true ∧
  Verifier.strEqual (o_script o1) (o_script o2) = true ∧
  o_amount o1 = o_amount o2 ∧
  ∃ decryptedMessage,
    Utils.decryptMessage (o_message o2) encryptingKey = Ok decryptedMessage ∧
    Verifier.strEqual (o_message o1) decryptedMessage = true.

(** Two proposal outputs that [buildTx] cannot tell apart: the same
    script and amount, and the same destination where there is no
    script. *)
Definition same_payment (o o' : TxpOutput) : Prop :=
  o_script o = o_script o' ∧
  o_amount o = o_amount o' ∧
  (truthy_s (o_script o) = false → o_toAddress o = o_toAddress o').

(** The string holds no pipe character. *)
Definition no_pipe (s : string) : Prop :=
  ¬ In "|"%char (list_ascii_of_string s).

(** The library's signing and verification agree for a private key and
    a public key: what it signs is a non-empty string that parses as a
    signature and verifies. *)
Definition key_pair `{SigningLib} (priv : PrivateKey) (pub : PublicKey) : Prop :=
  ∀ hash signed, ECDSA_sign hash priv = Some signed →
    signed ≠ "" ∧
    ∃ sig, Signature_fromString signed = Some sig ∧ ECDSA_verify hash sig pub = Some true.

(** What the unit scaling leaves of a property: a number stays a
    number, and what is not a number stays as it was. *)
Definition same_kind (v v' : JsVal) : Prop :=
  isNumber v' = isNumber v ∧ (isNumber v = false → v' = v).

Definition output_kept (o o' : ConvOutput) : Prop :=
  cvo_toAddress o' = cvo_toAddress o ∧ same_kind (cvo_amount o) (cvo_amount o').

Definition input_kept (i i' : ConvInput) : Prop :=
  cvi_txid i' = cvi_txid i ∧ same_kind (cvi_satoshis i) (cvi_satoshis i').

End Predicates.

(** * Properties *)

(** ** Results *)

Lemma checkState_Ok (b : bool) (u : unit) : checkState b = Ok u ↔ b = true.
Proof. destruct b, u; simpl; split; intros E; try reflexivity; discriminate E. Qed.

Lemma checkState_false (b : bool) : b = false → checkState b = Throw InvalidState.
Proof. intros ->. reflexivity. Qed.

Lemma bind_Ok {A B} (r : result A) (f : A → result B) (b : B) :
  r ≫= f = Ok b ↔ ∃ a, r = Ok a ∧ f a = Ok b.
Proof.
  destruct r as [a|e]; simpl; split.
  - intros E. exists a. split; [reflexivity | exact E].
  - intros (a' & [= <-] & E). exact E.
  - discriminate.
  - intros (a' & E & _). discriminate E.
Qed.

(** ** buildTx: the fee bound *)

Section BuildTxFee.
Context `{Constants} `{TransactionLib}.

Lemma buildTx_validate_Ok (txp : Txp) (t t' : Transaction) :
  Utils.buildTx_validate txp t = Ok t' ↔ t' = t ∧ fee_in_bounds txp t.
Proof.
  unfold Utils.buildTx_validate, fee_in_bounds.
  destruct (0 <=? Utils.totalInputs txp - Utils.totalOutputs t) eqn:E1;
    destruct (Utils.totalInputs txp - Utils.totalOutputs t <=? Defaults.MAX_TX_FEE) eqn:E2;
    simpl; split.
  all: try discriminate.
  all: try (intros [= <-]; split; [reflexivity | lia]).
  all: try (intros [-> Hb]; reflexivity).
  all: intros [_ Hb]; lia.
Qed.

Lemma buildTx_validate_Throw (txp : Txp) (t : Transaction) :
  ¬ fee_in_bounds txp t → Utils.buildTx_validate txp t = Throw InvalidState.
Proof.
  unfold Utils.buildTx_validate, fee_in_bounds. intros Hn.
  destruct (0 <=? Utils.totalInputs txp - Utils.totalOutputs t) eqn:E1; simpl; [|reflexivity].
  destruct (Utils.totalInputs txp - Utils.totalOutputs t <=? Defaults.MAX_TX_FEE) eqn:E2; simpl; [|reflexivity].
  exfalso. apply Hn. lia.
Qed.

(** C1, amended.  [buildTx] returns the transaction [t] exactly when the
    reconstruction (inputs, outputs, fee, change, output order) yields
    [t] and the totals recomputed from the proposal's inputs and from
    the outputs of [t] satisfy 0 <= totalInputs - totalOutputs <=
    MAX_TX_FEE; when the reconstruction yields [t] and the totals are
    outside that range, the call fails with an invalid-state error. *)
Theorem buildTx_fee_bound (txp : Txp) (t : Transaction) :
  (Utils.buildTx txp = Ok t ↔
     (Utils.buildTx_assemble txp ≫= Utils.buildTx_shuffle txp) = Ok t ∧ fee_in_bounds txp t) ∧
  ((Utils.buildTx_assemble txp ≫= Utils.buildTx_shuffle txp) = Ok t →
     ¬ fee_in_bounds txp t → Utils.buildTx txp = Throw InvalidState).
Proof.
  unfold Utils.buildTx. split.
  - split.
    + intros E. apply bind_Ok in E as (t1 & E1 & E). apply bind_Ok in E as (t2 & E2 & E).
      apply buildTx_validate_Ok in E as [-> Hb]. rewrite E1. simpl. split; assumption.
    + intros [E Hb]. apply bind_Ok in E as (t1 & E1 & E2). rewrite E1. simpl. rewrite E2. simpl.
      apply buildTx_validate_Ok. split; [reflexivity | assumption].
  - intros E Hn. apply bind_Ok in E as (t1 & E1 & E2). rewrite E1. simpl. rewrite E2. simpl.
    apply buildTx_validate_Throw. assumption.
Qed.

End BuildTxFee.

Section BuildTxFeeExamples.
Import Reference.

Example buildTx_sample : Utils.buildTx Sample.txp = Ok Sample.shuffled.
Proof. vm_compute. reflexivity. Qed.

Lemma buildTx_fee_bound_witness : Utils.buildTx Sample.txp = Ok Sample.shuffled.
Proof.
  apply (proj1 (buildTx_fee_bound Sample.txp Sample.shuffled)).
  split; [vm_compute; reflexivity|].
  unfold fee_in_bounds. vm_compute. split; discriminate.
Defined.

(** C1, as stated, fails: the totals of the reconstructed transaction
    are within the bound, yet [buildTx] fails, because the output order
    was truncated. *)
Lemma buildTx_fee_bound_not_sufficient :
  Utils.buildTx_assemble Sample.txp_truncated = Ok Sample.assembled ∧
  ¬ ((∃ t, Utils.buildTx Sample.txp_truncated = Ok t) ↔
     fee_in_bounds Sample.txp_truncated Sample.assembled).
Proof.
  split; [vm_compute; reflexivity|].
  intros [_ Hsucc].
  destruct Hsucc as [t Ht].
  - unfold fee_in_bounds. vm_compute. split; discriminate.
  - vm_compute in Ht. discriminate Ht.
Qed.

End BuildTxFeeExamples.

(** ** buildTx: the output order *)

Section BuildTxOrder.
Context `{Constants} `{TransactionLib}.

Lemma filteredOrder_spec (txp : Txp) (count : nat) (i : Z) :
  In i (Utils.filteredOrder txp count) ↔ In i (txp_outputOrder txp) ∧ i < Z.of_nat count.
Proof.
  unfold Utils.filteredOrder. rewrite filter_In.
  destruct (Z.of_nat count <=? i) eqn:E; simpl; split; intros [Hin Hlt]; split; try assumption;
    try discriminate; try reflexivity; lia.
Qed.

Lemma sortingFunction_lookup {A} (order : list Z) (outputs : list A) (k : nat) (i : Z) :
  order !! k = Some i →
  Utils.sortingFunction order outputs !! k = Some (js_index outputs i).
Proof.
  intros Hk. unfold Utils.sortingFunction.
  change (List.map (λ i0 : Z, js_index outputs i0) order) with ((λ i0 : Z, js_index outputs i0) <$> order).
  rewrite list_lookup_fmap, Hk. reflexivity.
Qed.

(** C5.  Let [t] be the transaction after inputs, outputs, fee and
    change, and [order] the proposal's [outputOrder] without the indices
    that are not below the output count.  With more than one output,
    [buildTx] fails when [order] and the outputs differ in length, and
    otherwise reorders through the library's [sortOutputs] with the
    callback that puts output [i] of the unordered list at every
    position where [i] occurs in [order]; when the library installs the
    list its callback returns, the transaction [buildTx] returns has
    output [i] there.  With one or zero outputs nothing is reordered. *)
Theorem buildTx_output_order (txp : Txp) (t : Transaction) :
  Utils.buildTx_assemble txp = Ok t →
  let count := length (tx_outputs t) in
  let order := Utils.filteredOrder txp count in
  (∀ i, In i order ↔ In i (txp_outputOrder txp) ∧ i < Z.of_nat count) ∧
  ((1 < count)%nat → length order ≠ count → Utils.buildTx txp = Throw InvalidState) ∧
  ((1 < count)%nat → length order = count →
     Utils.buildTx txp =
       lib (tx_sortOutputs t (Utils.sortingFunction order)) ≫= Utils.buildTx_validate txp ∧
     (∀ k i, order !! k = Some i →
        Utils.sortingFunction order (tx_outputs t) !! k = Some (js_index (tx_outputs t) i)) ∧
     ((∀ f t', tx_sortOutputs t f = Some t' → Some <$> tx_outputs t' = f (tx_outputs t)) →
      ∀ t', Utils.buildTx txp = Ok t' →
      ∀ k i, order !! k = Some i → tx_outputs t' !! k = js_index (tx_outputs t) i)) ∧
  ((count ≤ 1)%nat → Utils.buildTx txp = Utils.buildTx_validate txp t).
Proof.
  intros Ha count order.
  assert (Hb : Utils.buildTx txp = Utils.buildTx_shuffle txp t ≫= Utils.buildTx_validate txp).
  { unfold Utils.buildTx. rewrite Ha. reflexivity. }
  split; [intros i; apply filteredOrder_spec|].
  split; [|split].
  - intros Hc Hl. rewrite Hb. unfold Utils.buildTx_shuffle.
    fold count. fold order.
    destruct (1 <? count)%nat eqn:E; [|apply Nat.ltb_ge in E; lia].
    rewrite bool_decide_false by (intros E'; apply Hl; symmetry; exact E').
    reflexivity.
  - intros Hc Hl.
    assert (Hs : Utils.buildTx_shuffle txp t = lib (tx_sortOutputs t (Utils.sortingFunction order))).
    { unfold Utils.buildTx_shuffle. fold count. fold order.
      destruct (1 <? count)%nat eqn:E; [|apply Nat.ltb_ge in E; lia].
      rewrite bool_decide_true by (symmetry; exact Hl). reflexivity. }
    split; [rewrite Hb, Hs; reflexivity|].
    split; [intros k i Hk; apply sortingFunction_lookup; exact Hk|].
    intros Hlaw t' Ht' k i Hk.
    rewrite Hb, Hs in Ht'.
    destruct (tx_sortOutputs t (Utils.sortingFunction order)) as [t1|] eqn:E1; [|discriminate Ht'].
    simpl in Ht'. apply buildTx_validate_Ok in Ht' as [-> _].
    pose proof (Hlaw _ _ E1) as Hl1.
    pose proof (sortingFunction_lookup order (tx_outputs t) k i Hk) as Hk1.
    rewrite <- Hl1, list_lookup_fmap in Hk1.
    destruct (tx_outputs t1 !! k) as [o|]; simpl in Hk1; [|discriminate Hk1].
    injection Hk1 as <-. reflexivity.
  - intros Hc. rewrite Hb. unfold Utils.buildTx_shuffle. fold count.
    destruct (1 <? count)%nat eqn:E; [apply Nat.ltb_lt in E; lia|]. reflexivity.
Qed.

End BuildTxOrder.

Section BuildTxOrderExamples.
Import Reference.

Lemma omap_id_length {A} (l : list (option A)) :
  (length (omap id l) ≤ length l)%nat.
Proof. induction l as [|[a|] l IH]; cbn; lia. Qed.

Lemma omap_id_full {A} (l : list (option A)) :
  length (omap id l) = length l → Some <$> omap id l = l.
Proof.
  induction l as [|[a|] l IH]; cbn; intros Hl.
  - reflexivity.
  - f_equal. apply IH. injection Hl as Hl. exact Hl.
  - pose proof (omap_id_length l) as Hle. lia.
Qed.

(** The reference container installs the list its callback returned. *)
Lemma sort_outputs_installs (t : RefTx) f (t' : RefTx) :
  sort_outputs t f = Some t' → Some <$> rt_outputs t' = f (rt_outputs t).
Proof.
  unfold sort_outputs. intros Hs.
  destruct (bool_decide (length (f (rt_outputs t)) = length (rt_outputs t))) eqn:E1; simpl in Hs; [|discriminate].
  destruct (bool_decide (omap id (f (rt_outputs t)) ≡ₚ rt_outputs t)) eqn:E2; simpl in Hs; [|discriminate].
  injection Hs as <-. simpl.
  apply bool_decide_eq_true in E1, E2.
  apply omap_id_full. rewrite E1. apply Permutation_length. exact E2.
Qed.

Lemma buildTx_output_order_witness :
  tx_outputs Sample.shuffled !! 0%nat = js_index (tx_outputs Sample.assembled) 1.
Proof.
  refine (proj2 (proj2 (proj1 (proj2 (proj2
    (buildTx_output_order Sample.txp Sample.assembled _))) _ _)) _ Sample.shuffled _ 0%nat 1 _).
  - vm_compute. reflexivity.
  - simpl. lia.
  - vm_compute. reflexivity.
  - intros f t'. apply sort_outputs_installs.
  - vm_compute. reflexivity.
  - vm_compute. reflexivity.
Defined.

End BuildTxOrderExamples.

(** ** checkPaypro *)

(** C8, amended.  For a proposal of version 3 or more with at least one
    output, [checkPaypro] returns true exactly when the first output's
    destination equals the target's [toAddress] and the proposal's own
    [amount] field equals the target's [amount]; any mismatch yields
    false. *)
Theorem checkPaypro_current_format (txp : Txp) (payproOpts : PayproOpts) (o : TxpOutput) (rest : list TxpOutput) :
  version_ge_3 (txp_version txp) = true →
  txp_outputs txp = Some (o :: rest) →
  (Verifier.checkPaypro txp payproOpts = Ok true ↔
     o_toAddress o = pp_toAddress payproOpts ∧ txp_amount txp = pp_amount payproOpts) ∧
  (¬ (o_toAddress o = pp_toAddress payproOpts ∧ txp_amount txp = pp_amount payproOpts) →
     Verifier.checkPaypro txp payproOpts = Ok false).
Proof.
  intros Hv Ho. unfold Verifier.checkPaypro. rewrite Hv, Ho. simpl.
  unfold eq_s, eq_z.
  destruct (decide (o_toAddress o = pp_toAddress payproOpts)) as [Ea|Ea];
    destruct (decide (txp_amount txp = pp_amount payproOpts)) as [Em|Em].
  - rewrite !bool_decide_true by assumption. simpl. split; [|tauto]. split; [tauto | reflexivity].
  - rewrite bool_decide_true, bool_decide_false by assumption. simpl.
    split; [|reflexivity]. split; [discriminate | tauto].
  - rewrite bool_decide_false by assumption. simpl.
    split; [|reflexivity]. split; [discriminate | tauto].
  - rewrite bool_decide_false by assumption. simpl.
    split; [|reflexivity]. split; [discriminate | tauto].
Qed.

Lemma checkPaypro_current_format_witness :
  Verifier.checkPaypro Sample.txp Sample.paypro_total = Ok true.
Proof.
  apply (proj1 (checkPaypro_current_format Sample.txp _ (Sample.pay "addrA" 50000000)
                  [Sample.pay "addrB" 49990000] eq_refl eq_refl)).
  split; reflexivity.
Defined.

(** C8, as stated, fails: the target names the first output's address
    and the first output's amount, and [checkPaypro] answers false,
    because it compares the proposal's [amount] field. *)
Lemma checkPaypro_ignores_output_amount :
  txp_outputs Sample.txp = Some [Sample.pay "addrA" 50000000; Sample.pay "addrB" 49990000] ∧
  version_ge_3 (txp_version Sample.txp) = true ∧
  o_toAddress (Sample.pay "addrA" 50000000) = pp_toAddress Sample.paypro_first_output ∧
  Some (o_amount (Sample.pay "addrA" 50000000)) = pp_amount Sample.paypro_first_output ∧
  Verifier.checkPaypro Sample.txp Sample.paypro_first_output = Ok false.
Proof. repeat split. Qed.

(** ** checkAddress *)

Lemma difference_empty (a b : list string) :
  length (difference a b) = 0%nat ↔ ∀ k, k ∈ a → k ∈ b.
Proof.
  unfold difference. induction a as [|x a IH]; simpl.
  - split; [intros _ k Hk; inversion Hk | reflexivity].
  - unfold includes at 1. destruct (decide (x ∈ b)) as [Hx|Hx].
    + rewrite bool_decide_true by assumption. simpl. rewrite IH. split.
      * intros Ha k Hk. apply elem_of_cons in Hk as [->|Hk]; [assumption | apply Ha, Hk].
      * intros Ha k Hk. apply Ha. apply elem_of_cons. right. exact Hk.
    + rewrite bool_decide_false by assumption. simpl. split; [discriminate|].
      intros Ha. exfalso. apply Hx, Ha. apply elem_of_cons. left. reflexivity.
Qed.

Section CheckAddress.
Context `{Constants} `{CryptoLib}.

(** C10.  When the address object carries a type (a non-empty string),
    [checkAddress] derives with that type and the result does not depend
    on [credentials.addressType]; the credentials' type is used only
    when the address has none. *)
Theorem checkAddress_script_type (credentials : Credentials) (address : AddressObj) :
  (truthy_s (addr_type address) = true →
     Verifier.checkAddress credentials (Some address) =
       (checkState (isComplete credentials);;
        local ← Utils.deriveAddress (addr_type address) (cred_publicKeyRing credentials)
                  (addr_path address) (cred_m credentials) (cred_network credentials);
        Ok (String.eqb (da_address local) (addr_address address) &&
            bool_decide (length (difference (da_publicKeys local) (addr_publicKeys address)) = 0%nat))) ∧
     ∀ addressType,
       Verifier.checkAddress (set_addressType addressType credentials) (Some address) =
       Verifier.checkAddress credentials (Some address)) ∧
  (truthy_s (addr_type address) = false →
     Verifier.checkAddress credentials (Some address) =
       (checkState (isComplete credentials);;
        local ← Utils.deriveAddress (cred_addressType credentials) (cred_publicKeyRing credentials)
                  (addr_path address) (cred_m credentials) (cred_network credentials);
        Ok (String.eqb (da_address local) (addr_address address) &&
            bool_decide (length (difference (da_publicKeys local) (addr_publicKeys address)) = 0%nat)))).
Proof.
  unfold Verifier.checkAddress, or_s. split; intros Ht; rewrite Ht.
  - split; [reflexivity|]. intros addressType. reflexivity.
  - reflexivity.
Qed.

(** C2, amended.  [checkAddress] returns true exactly when the
    credentials are complete, the derivation succeeds, the derived
    address string equals [address.address], and every derived public
    key occurs in [address.publicKeys]; keys of [address.publicKeys]
    beyond the derived ones are not looked at. *)
Theorem checkAddress_true (credentials : Credentials) (address : AddressObj) :
  Verifier.checkAddress credentials (Some address) = Ok true ↔
  isComplete credentials = true ∧
  ∃ local,
    Utils.deriveAddress (or_s (addr_type address) (cred_addressType credentials))
      (cred_publicKeyRing credentials) (addr_path address)
      (cred_m credentials) (cred_network credentials) = Ok local ∧
    da_address local = addr_address address ∧
    ∀ k, k ∈ da_publicKeys local → k ∈ addr_publicKeys address.
Proof.
  unfold Verifier.checkAddress. split.
  - intros E. apply bind_Ok in E as (u & Ec & E). apply checkState_Ok in Ec.
    apply bind_Ok in E as (local & Ed & E). injection E as E.
    apply andb_true_iff in E as [Ea Ek].
    apply String.eqb_eq in Ea. apply bool_decide_eq_true in Ek.
    pose proof (proj1 (difference_empty _ _) Ek) as Hk.
    split; [assumption|]. exists local. split; [assumption|]. split; assumption.
  - intros (Ec & local & Ed & Ea & Ek). rewrite Ec. simpl. rewrite Ed. simpl.
    f_equal. apply andb_true_iff. split.
    + apply String.eqb_eq. assumption.
    + apply bool_decide_eq_true. apply difference_empty. assumption.
Qed.

End CheckAddress.

Section CheckAddressExamples.
Import Reference.

Example deriveAddress_sample :
  Utils.deriveAddress (Some "P2SH") (cred_publicKeyRing Sample.credentials) "m/0/1"
    (cred_m Sample.credentials) (cred_network Sample.credentials) = Ok Sample.derived.
Proof. vm_compute. reflexivity. Qed.

Lemma checkAddress_script_type_witness :
  Verifier.checkAddress (set_addressType (Some "P2PKH") Sample.credentials) (Some Sample.address) =
  Verifier.checkAddress Sample.credentials (Some Sample.address).
Proof.
  apply (proj2 (proj1 (checkAddress_script_type Sample.credentials Sample.address) eq_refl)).
Defined.

Lemma checkAddress_true_witness :
  Verifier.checkAddress Sample.credentials (Some Sample.address) = Ok true.
Proof.
  apply (proj2 (checkAddress_true Sample.credentials Sample.address)).
  split; [reflexivity|]. exists Sample.derived.
  split; [vm_compute; reflexivity|]. split; [reflexivity|].
  intros k Hk. exact Hk.
Defined.

(** C2, as stated, fails: an address object whose key list holds a key
    that is not among the derived ones is accepted. *)
Lemma checkAddress_accepts_extra_key :
  Verifier.checkAddress Sample.credentials (Some Sample.address_extra_key) = Ok true ∧
  Utils.deriveAddress (Some "P2SH") (cred_publicKeyRing Sample.credentials) "m/0/1"
    (cred_m Sample.credentials) (cred_network Sample.credentials) = Ok Sample.derived ∧
  "pub:other" ∈ addr_publicKeys Sample.address_extra_key ∧
  "pub:other" ∉ da_publicKeys Sample.derived.
Proof.
  split; [vm_compute; reflexivity|].
  split; [vm_compute; reflexivity|].
  split.
  - apply (bool_decide_eq_true_1 _). vm_compute. reflexivity.
  - apply (bool_decide_eq_false_1 _). vm_compute. reflexivity.
Qed.

End CheckAddressExamples.

(** ** verifyMessage *)

Lemma truthy_s_Some (s : string) : s ≠ "" → truthy_s (Some s) = true.
Proof.
  intros Hs. simpl. destruct (String.eqb s "") eqn:E; [|reflexivity].
  apply String.eqb_eq in E. contradiction.
Qed.

Lemma truthy_s_inv (v : option string) : truthy_s v = true → ∃ s, v = Some s ∧ s ≠ "".
Proof.
  destruct v as [s|]; simpl; [|discriminate]. intros E. exists s. split; [reflexivity|].
  intros ->. discriminate E.
Qed.

Section VerifyMessage.
Context `{CryptoLib}.

(** C4, amended.  For a non-empty text, [verifyMessage] returns a
    boolean whenever the public-key string is non-empty and the library
    parses it: a missing, empty or malformed signature and a failure
    inside the signature check yield false, and true is returned only
    when the library verified the parsed signature over the reversed
    double hash of the text.  A public-key string that is empty or that
    the library does not parse is not absorbed: the call raises. *)
Theorem verifyMessage_no_escape (text : string) (signature : option string) (pubKey : string) :
  text ≠ "" →
  (∀ pub, pubKey ≠ "" → PublicKey_new pubKey = Some pub →
     ∃ b, Utils.verifyMessage text signature pubKey = Ok b ∧
          (b = true →
           ∃ s sig, signature = Some s ∧ Signature_fromString s = Some sig ∧
                    ECDSA_verify (rev (Hash_sha256sha256 (list_ascii_of_string text))) sig pub = Some true)) ∧
  (pubKey = "" → Utils.verifyMessage text signature pubKey = Throw InvalidArgument) ∧
  (pubKey ≠ "" → truthy_s signature = true → PublicKey_new pubKey = None →
     Utils.verifyMessage text signature pubKey = Throw LibraryError).
Proof.
  intros Ht. unfold Utils.verifyMessage, Utils.hashMessage.
  rewrite (truthy_s_Some text Ht). simpl checkArgument at 1. cbn [mbind result_bind].
  split; [|split].
  - intros pub Hp Hpub. rewrite (truthy_s_Some pubKey Hp). cbn [checkArgument mbind result_bind].
    destruct (truthy_s signature) eqn:Es; cbn [negb].
    + rewrite Hpub. cbn [lib mbind result_bind].
      apply truthy_s_inv in Es as (s & -> & _). cbn [lib mbind result_bind].
      destruct (Signature_fromString s) as [sig|] eqn:Esig; cbn [lib mbind result_bind try_catch].
      * destruct (ECDSA_verify _ sig pub) as [v|] eqn:Ev; cbn [lib mbind result_bind try_catch].
        -- exists v. split; [reflexivity|]. intros ->. exists s, sig. repeat split; assumption.
        -- exists false. split; [reflexivity | discriminate].
      * exists false. split; [reflexivity | discriminate].
    + exists false. split; [reflexivity | discriminate].
  - intros ->. reflexivity.
  - intros Hp Es Hpub. rewrite (truthy_s_Some pubKey Hp). cbn [checkArgument mbind result_bind].
    rewrite Es, Hpub. reflexivity.
Qed.

End VerifyMessage.

Section VerifyMessageExamples.
Import Reference.

Lemma verifyMessage_no_escape_witness :
  ∃ b, Utils.verifyMessage "hello" (Some "not a signature") "pub:w" = Ok b.
Proof.
  assert (Ht : "hello" ≠ "") by discriminate.
  destruct (proj1 (@verifyMessage_no_escape crypto "hello" (Some "not a signature") "pub:w" Ht)
              "pub:w" ltac:(discriminate) eq_refl) as (b & Hb & _).
  exists b. exact Hb.
Defined.

(** C4, as stated, fails: with a non-empty text and a signature string,
    a public-key string that the library does not parse makes
    [verifyMessage] raise, and so does an empty one. *)
Lemma verifyMessage_raises_on_malformed_key :
  PublicKey_new "malformed" = None ∧
  Utils.verifyMessage "hello" (Some "sig:olleh@pub:w") "malformed" = Throw LibraryError ∧
  Utils.verifyMessage "hello" (Some "sig:olleh@pub:w") "" = Throw InvalidArgument ∧
  Utils.verifyMessage "hello" (Some "sig:olleh@pub:w") "pub:w" = Ok true.
Proof. repeat split. Qed.

End VerifyMessageExamples.

(** ** decryptMessage and checkProposalCreation *)

Section Decrypt.
Context `{Sjcl}.

Lemma decryptMessage_cases (cyphertextJson : option string) (encryptingKey : string) :
  (decryption_fails cyphertextJson encryptingKey ∧
   Utils.decryptMessage cyphertextJson encryptingKey = Ok cyphertextJson) ∨
  (∃ key c p, base64_toBits encryptingKey = Some key ∧ cyphertextJson = Some c ∧
              sjcl_decrypt key c = Some p ∧
              Utils.decryptMessage cyphertextJson encryptingKey = Ok (Some p)).
Proof.
  unfold Utils.decryptMessage, decryption_fails.
  destruct (base64_toBits encryptingKey) as [key|] eqn:Ek; cbn [lib mbind result_bind try_catch].
  - destruct cyphertextJson as [c|]; cbn [lib mbind result_bind try_catch].
    + destruct (sjcl_decrypt key c) as [p|] eqn:Ed; cbn [lib mbind result_bind try_catch].
      * right. exists key, c, p. repeat split; assumption.
      * left. split; [|reflexivity]. intros key' c' [= <-] [= <-]. exact Ed.
    + left. split; [|reflexivity]. intros key' c' _ [=].
  - left. split; [|reflexivity]. intros key' c' [=].
Qed.

Lemma decryptMessage_Ok (cyphertextJson : option string) (encryptingKey : string) :
  ∃ v, Utils.decryptMessage cyphertextJson encryptingKey = Ok v.
Proof.
  destruct (decryptMessage_cases cyphertextJson encryptingKey) as [[_ E]|(key & c & p & _ & _ & _ & E)];
    rewrite E; eexists; reflexivity.
Qed.

Lemma checkProposalCreation_output_Ok (encryptingKey : string) (o1 o2 : TxpOutput) :
  ∃ r, Verifier.checkProposalCreation_output encryptingKey o1 o2 = Ok r.
Proof.
  unfold Verifier.checkProposalCreation_output.
  destruct (negb (Verifier.strEqual (o_toAddress o1) (o_toAddress o2))); [eexists; reflexivity|].
  destruct (negb (Verifier.strEqual (o_script o1) (o_script o2))); [eexists; reflexivity|].
  destruct (negb (o_amount o1 =? o_amount o2)); [eexists; reflexivity|].
  destruct (decryptMessage_Ok (o_message o2) encryptingKey) as [v E]. rewrite E.
  cbn [mbind result_bind try_catch].
  destruct (negb _); eexists; reflexivity.
Qed.

Lemma checkProposalCreation_loop_Ok (encryptingKey : string) (os1 os2 : list TxpOutput) :
  ∃ r, Verifier.checkProposalCreation_loop encryptingKey os1 os2 = Ok r.
Proof.
  revert os2. induction os1 as [|o1 os1 IH]; intros [|o2 os2]; simpl; try (eexists; reflexivity).
  destruct (checkProposalCreation_output_Ok encryptingKey o1 o2) as [[b|] E]; rewrite E; simpl.
  - eexists; reflexivity.
  - apply IH.
Qed.

End Decrypt.

Section DecryptExamples.
Import Reference.

(** C7, as stated, fails: sjcl cannot decrypt the submitted message, the
    value [decryptMessage] yields equals the expected plaintext, and
    [checkProposalCreation] answers true. *)
Lemma decryption_failure_can_match :
  sjcl_decrypt "k" "hello" = None ∧
  Utils.decryptMessage (Some "hello") "k" = Ok (txp_message Sample.txp_hello) ∧
  Verifier.checkProposalCreation Sample.args_hello Sample.txp_hello "k" = Ok true.
Proof. repeat split. Qed.

End DecryptExamples.

(** ** checkTxProposalSignature: legacy proposals *)

Section LegacyProposal.
Context `{Constants} `{CryptoLib} `{Sjcl} `{TransactionLib}.

(** C6.  With complete credentials, a non-empty [creatorId] and a
    version that is not 3 or more, [checkTxProposalSignature] raises the
    not-supported error exactly when the creator was found in the ring
    and a signing key was established; it never returns true. *)
Theorem checkTxProposalSignature_legacy (credentials : Credentials) (txp : Txp) :
  isComplete credentials = true →
  truthy_s (txp_creatorId txp) = true →
  version_ge_3 (txp_version txp) = false →
  ((∃ key, signer_established credentials txp key) ↔
     Verifier.checkTxProposalSignature credentials txp = Throw NotSupported) ∧
  Verifier.checkTxProposalSignature credentials txp ≠ Ok true.
Proof.
  intros Hc Hid Hv. unfold signer_established, Verifier.checkTxProposalSignature.
  rewrite Hid, Hc, Hv. cbn [checkArgument checkState mbind result_bind].
  fold (creator_entry credentials txp).
  destruct (creator_entry credentials txp) as [ck|] eqn:Eck.
  2:{ split; [|discriminate]. split; [intros (k & ck & [=] & _) | discriminate]. }
  destruct (truthy_s (txp_proposalSignaturePubKey txp)) eqn:Epk.
  - destruct (Utils.verifyRequestPubKey _ _ (ring_xPubKey ck)) as [[|]|e] eqn:Ev;
      cbn [negb mbind result_bind].
    + rewrite Epk. cbn [negb mbind result_bind]. split; [|discriminate].
      split; [reflexivity|]. intros _.
      apply truthy_s_inv in Epk as (k & Ek & Hk). exists k, ck.
      split; [reflexivity|]. split; [assumption|]. left.
      split; [reflexivity|]. split; assumption.
    + split; [|discriminate]. split; [|discriminate].
      intros (k & ck' & [= <-] & _ & [(_ & Ev' & _)|(Ef & _)]); [rewrite Ev in Ev'|]; discriminate.
    + split; [|discriminate]. split.
      * intros (k & ck' & [= <-] & _ & [(_ & Ev' & _)|(Ef & _)]); [rewrite Ev in Ev'|]; discriminate.
      * intros [= ->]. exfalso. revert Ev. unfold Utils.verifyRequestPubKey, Utils.verifyMessage, Utils.hashMessage.
        destruct (HDPublicKey_deriveChild _ _); cbn [lib mbind result_bind]; [|discriminate].
        repeat (match goal with
                | |- context [checkArgument ?b] => destruct b; cbn [checkArgument mbind result_bind]
                | |- context [negb ?b] => destruct b; cbn [negb]
                | |- context [lib ?o] => destruct o; cbn [lib mbind result_bind try_catch]
                end; try discriminate).
  - cbn [mbind result_bind].
    destruct (truthy_s (ring_requestPubKey ck)) eqn:Er; cbn [negb mbind result_bind].
    + split; [|discriminate]. split; [reflexivity|]. intros _.
      apply truthy_s_inv in Er as (k & Ek & Hk). exists k, ck.
      split; [reflexivity|]. split; [assumption|]. right. split; [reflexivity | assumption].
    + split; [|discriminate]. split; [|discriminate].
      intros (k & ck' & [= <-] & Hk & [(Ef & _)|(_ & Ek)]); [discriminate|].
      rewrite Ek in Er. rewrite (truthy_s_Some k Hk) in Er. discriminate.
Qed.

End LegacyProposal.

Section LegacyProposalExamples.
Import Reference.

Lemma checkTxProposalSignature_legacy_witness :
  Verifier.checkTxProposalSignature Sample.credentials Sample.txp_legacy = Throw NotSupported.
Proof.
  apply (proj1 (checkTxProposalSignature_legacy Sample.credentials Sample.txp_legacy eq_refl eq_refl eq_refl)).
  exists "pub:reqA", {| ring_xPubKey := "xpubA"; ring_requestPubKey := Some "pub:reqA" |}.
  split; [reflexivity|]. split; [discriminate|]. right. split; reflexivity.
Defined.

End LegacyProposalExamples.

(** ** checkCopayers: repeated keys *)

Lemma post_increment_NaN (uniq : gmap string JsNum) (key : string) :
  all_NaN uniq →
  fst (post_increment uniq key) = JNaN ∧ all_NaN (snd (post_increment uniq key)).
Proof.
  intros Hu. unfold post_increment. simpl.
  assert (Ho : to_number (uniq !! key) = JNaN).
  { destruct (uniq !! key) as [v|] eqn:E; simpl; [apply (Hu key v E) | reflexivity]. }
  rewrite Ho. simpl. split; [reflexivity|].
  intros k v. rewrite lookup_insert. case_decide.
  - intros [= <-]. reflexivity.
  - apply Hu.
Qed.

Section CheckCopayers.
Context `{CryptoLib}.

Lemma checkCopayers_each_well_signed (copayers : list Copayer) (walletPubKey : string)
  (uniq : gmap string JsNum) (copayer : Copayer) :
  all_NaN uniq → well_signed walletPubKey copayer →
  ∃ uniq', Verifier.checkCopayers_each copayers walletPubKey (uniq, false) copayer = Ok (uniq', false) ∧
           all_NaN uniq'.
Proof.
  intros Hu (Hn & Hx & Hr & Hs & Hv). unfold Verifier.checkCopayers_each.
  destruct (post_increment_NaN uniq (property_key (Verifier.copayers_xPubKey copayers)) Hu) as [Ho Hu'].
  destruct (post_increment uniq _) as [old uniq']. simpl in Ho, Hu'. subst old.
  rewrite Hn, Hx, Hr, Hs, Hv. simpl. exists uniq'. split; [reflexivity | assumption].
Qed.

Lemma checkCopayers_loop_well_signed (copayers rest : list Copayer) (walletPubKey : string)
  (uniq : gmap string JsNum) :
  all_NaN uniq → Forall (well_signed walletPubKey) rest →
  ∃ uniq', foldM (Verifier.checkCopayers_each copayers walletPubKey) rest (uniq, false) = Ok (uniq', false).
Proof.
  intros Hu Hall. revert uniq Hu. induction Hall as [|c rest Hc _ IH]; intros uniq Hu; cbn [foldM].
  - exists uniq. reflexivity.
  - destruct (checkCopayers_each_well_signed copayers walletPubKey uniq c Hu Hc) as (uniq' & E & Hu').
    rewrite E. cbn [mbind result_bind]. apply IH. exact Hu'.
Qed.

(** The loop of [checkCopayers] never reports a repeated key: a roster
    of the expected length whose entries are all signed by the wallet
    key and which contains the local key is accepted, whether or not a
    key occurs twice. *)
Lemma checkCopayers_accepts (credentials : Credentials) (copayers : list Copayer) (walletPubKey : string) :
  truthy_s (cred_walletPrivKey credentials) = true →
  PrivateKey_toPublicKey (default "" (cred_walletPrivKey credentials)) = Some walletPubKey →
  cred_n credentials = Some (Z.of_nat (length copayers)) →
  Forall (well_signed walletPubKey) copayers →
  cred_xPubKey credentials ∈ List.map cp_xPubKey copayers →
  Verifier.checkCopayers credentials copayers = Ok true.
Proof.
  intros Hw Hp Hn Hall Hin. unfold Verifier.checkCopayers.
  rewrite Hw, Hp, Hn. cbn [checkState lib mbind result_bind].
  unfold eq_z. rewrite bool_decide_true by reflexivity. cbn [negb].
  destruct (checkCopayers_loop_well_signed copayers copayers walletPubKey ∅) as [uniq' E];
    [intros k v; rewrite lookup_empty; discriminate | assumption |].
  rewrite E. cbn [mbind result_bind snd].
  unfold includes. rewrite bool_decide_true by assumption. reflexivity.
Qed.

End CheckCopayers.

Section CheckCopayersExamples.
Import Reference.

Example checkCopayers_roster :
  Verifier.checkCopayers Sample.credentials Sample.roster = Ok true.
Proof. vm_compute. reflexivity. Qed.

(** C3 does not hold of the code: in this roster of three entries, each
    signed by the wallet key, the second and third entries carry the
    same extended public key, and [checkCopayers] returns true. *)
Theorem checkCopayers_repeated_key_accepted :
  truthy_s (cred_walletPrivKey Sample.credentials) = true ∧
  cp_xPubKey <$> Sample.roster_repeated !! 1%nat = Some (Some "xpubB") ∧
  cp_xPubKey <$> Sample.roster_repeated !! 2%nat = Some (Some "xpubB") ∧
  Verifier.checkCopayers Sample.credentials Sample.roster_repeated = Ok true.
Proof.
  split; [reflexivity|]. split; [reflexivity|]. split; [reflexivity|].
  apply checkCopayers_accepts with (walletPubKey := "pub:priv:w").
  - reflexivity.
  - reflexivity.
  - reflexivity.
  - repeat constructor.
  - apply (bool_decide_eq_true_1 _). vm_compute. reflexivity.
Qed.

End CheckCopayersExamples.

(** ** Arguments after a call *)

Ltac st_unfold :=
  unfold mbind, st_mbind, mret, st_mret, st_bind, st_gets, st_lift, st_ret, st_zoom, st_modify,
    result_bind, result_ret;
  cbn beta iota delta [fst snd id].

(** One case analysis, on a scrutinee that holds no other. *)
Ltac st_case :=
  match goal with
  | |- context [match ?x with _ => _ end] =>
      lazymatch x with
      | context [match _ with _ => _ end] => fail
      | _ => destruct x
      end
  end.

Ltac st_cases :=
  repeat first [progress cbn beta iota delta [fst snd id negb] | st_case];
  reflexivity.

Lemma set_publicKeyRing_same (c : Credentials) : set_publicKeyRing (cred_publicKeyRing c) c = c.
Proof. destruct c. reflexivity. Qed.

Lemma set_changeAddress_same (p : Txp) : set_changeAddress (txp_changeAddress p) p = p.
Proof. destruct p. reflexivity. Qed.

Section StatefulRuns.
Context `{Constants} `{CryptoLib} `{Sjcl} `{TransactionLib} `{SigningLib} `{!SjclEncrypt} `{StringifyLib}
        `{NumberLib} `{FormatLib}.

Lemma deriveAddress_run (scriptType : option string) (path : string) (m : option Z) (network : string)
  (publicKeyRing : list RingEntry) :
  Stateful.deriveAddress scriptType path m network publicKeyRing =
  (Utils.deriveAddress scriptType publicKeyRing path m network, publicKeyRing).
Proof.
  unfold Stateful.deriveAddress, Utils.deriveAddress. st_unfold. st_cases.
Qed.

Lemma checkAddress_run (credentials : Credentials) (address : option AddressObj) :
  Stateful.checkAddress (credentials, address) =
  (Verifier.checkAddress credentials address, (credentials, address)).
Proof.
  unfold Stateful.checkAddress, Verifier.checkAddress. st_unfold.
  destruct (checkState (isComplete credentials)); [|reflexivity].
  destruct address as [address|]; [|reflexivity].
  rewrite deriveAddress_run, set_publicKeyRing_same. st_cases.
Qed.

Lemma checkCopayers_run (credentials : Credentials) (copayers : list Copayer) :
  Stateful.checkCopayers (credentials, copayers) =
  (Verifier.checkCopayers credentials copayers, (credentials, copayers)).
Proof.
  unfold Stateful.checkCopayers, Verifier.checkCopayers. st_unfold. st_cases.
Qed.

Lemma checkProposalCreation_run (encryptingKey : string) (args : ProposalArgs) (txp : Txp) :
  Stateful.checkProposalCreation encryptingKey (args, txp) =
  (Verifier.checkProposalCreation args txp encryptingKey, (args, txp)).
Proof.
  unfold Stateful.checkProposalCreation, Verifier.checkProposalCreation. st_unfold. st_cases.
Qed.

Lemma buildTx_run (txp : Txp) : Stateful.buildTx txp = (Utils.buildTx txp, txp).
Proof.
  unfold Stateful.buildTx, Utils.buildTx. st_unfold. st_cases.
Qed.

Lemma checkTxProposalSignature_run (credentials : Credentials) (txp : Txp) :
  Stateful.checkTxProposalSignature (credentials, txp) =
  (Verifier.checkTxProposalSignature credentials txp, (credentials, txp)).
Proof.
  unfold Stateful.checkTxProposalSignature, Verifier.checkTxProposalSignature. st_unfold.
  repeat first
    [ progress cbn beta iota delta [fst snd id negb]
    | rewrite buildTx_run
    | rewrite checkAddress_run
    | rewrite set_changeAddress_same
    | st_case ];
  reflexivity.
Qed.

Lemma checkPaypro_run (txp : Txp) (payproOpts : PayproOpts) :
  Stateful.checkPaypro (txp, payproOpts) = (Verifier.checkPaypro txp payproOpts, (txp, payproOpts)).
Proof.
  unfold Stateful.checkPaypro, Verifier.checkPaypro. st_unfold. st_cases.
Qed.

Lemma checkTxProposal_run (credentials : Credentials) (txp : Txp) (opts : option Verifier.CheckOpts) :
  Stateful.checkTxProposal ((credentials, txp), opts) =
  (Verifier.checkTxProposal credentials txp opts, ((credentials, txp), opts)).
Proof.
  unfold Stateful.checkTxProposal, Verifier.checkTxProposal. st_unfold.
  rewrite checkTxProposalSignature_run.
  destruct (Verifier.checkTxProposalSignature credentials txp) as [[|]|]; [|reflexivity|reflexivity].
  cbn beta iota delta [negb fst snd].
  destruct opts as [[[paypro|]]|]; cbn [default from_option id Verifier.opts_paypro]; [|reflexivity|reflexivity].
  rewrite checkPaypro_run. st_cases.
Qed.

Lemma encryptMessage_run (message encryptingKey : string) (SJCL : gmap string Z) :
  Stateful.encryptMessage message encryptingKey SJCL = (Utils.encryptMessage SJCL message encryptingKey, SJCL).
Proof.
  unfold Stateful.encryptMessage, Utils.encryptMessage. st_unfold. st_cases.
Qed.

Lemma signMessage_run (text : string) (privKey : string + PrivateKey) :
  Stateful.signMessage text privKey = (Utils.signMessage text privKey, privKey).
Proof.
  unfold Stateful.signMessage, Utils.signMessage. st_unfold. st_cases.
Qed.

Lemma formatAmount_frame (satoshis : Q) (unit : string) (opts : option FormatOpts) :
  snd (Stateful.formatAmount satoshis unit opts) = opts.
Proof.
  unfold Stateful.formatAmount. st_unfold. st_cases.
Qed.

Lemma convertTxpSatoshiToCoinProtocol_run (fromSatToCoin toSatToCoin : option Q) (opts : ConvOpts) :
  Stateful.convertTxpSatoshiToCoinProtocol fromSatToCoin toSatToCoin opts =
  (Ok (Utils.convertTxpSatoshiToCoinProtocol opts fromSatToCoin toSatToCoin),
   Utils.convertTxpSatoshiToCoinProtocol opts fromSatToCoin toSatToCoin).
Proof.
  unfold Stateful.convertTxpSatoshiToCoinProtocol, Utils.convertTxpSatoshiToCoinProtocol,
    Utils.scale_number, Utils.scale_truthy.
  st_unfold. destruct opts as [feeLevel feePerKb fee outputs inputs amount].
  repeat first
    [ progress cbn [cv_feeLevel cv_feePerKb cv_fee cv_outputs cv_inputs cv_amount
                    set_feeLevel set_feePerKb set_fee set_conv_outputs set_conv_inputs set_amount
                    fst snd id fmap option_fmap option_map]
    | st_case ];
  reflexivity.
Qed.


End StatefulRuns.

Section StatefulExamples.
Import Reference.


End StatefulExamples.

(** * Further properties *)

(** ** checkCopayers: what an accepted roster is *)

Lemma foldM_app {A S} (f : S → A → result S) (l1 l2 : list A) (s : S) :
  foldM f (l1 ++ l2) s = foldM f l1 s ≫= foldM f l2.
Proof.
  revert s. induction l1 as [|x l1 IH]; intros s; cbn [foldM app].
  - reflexivity.
  - destruct (f s x) as [s'|e]; cbn [mbind result_bind]; [apply IH | reflexivity].
Qed.

Section CheckCopayersMore.
Context `{CryptoLib}.

Lemma checkCopayers_each_inv (copayers : list Copayer) (walletPubKey : string)
  (uniq uniq' : gmap string JsNum) (error : bool) (copayer : Copayer) :
  Verifier.checkCopayers_each copayers walletPubKey (uniq, error) copayer = Ok (uniq', false) →
  error = false ∧ well_signed walletPubKey copayer.
Proof.
  unfold Verifier.checkCopayers_each, well_signed.
  destruct error; [discriminate|].
  destruct (post_increment uniq _) as [old u1].
  destruct (truthy_s (or_s (cp_encryptedName copayer) (cp_name copayer))); cbn [negb orb]; [|discriminate].
  destruct (truthy_s (cp_xPubKey copayer)); cbn [negb orb]; [|discriminate].
  destruct (truthy_s (cp_requestPubKey copayer)); cbn [negb orb]; [|discriminate].
  destruct (truthy_s (cp_signature copayer)); cbn [negb orb]; [|discriminate].
  destruct (Utils.verifyMessage _ _ _) as [[|]|e]; cbn [mbind result_bind negb]; try discriminate.
  intros _. repeat split; reflexivity.
Qed.

Lemma checkCopayers_loop_inv (copayers rest : list Copayer) (walletPubKey : string)
  (uniq uniq' : gmap string JsNum) (error : bool) :
  foldM (Verifier.checkCopayers_each copayers walletPubKey) rest (uniq, error) = Ok (uniq', false) →
  error = false ∧ Forall (well_signed walletPubKey) rest.
Proof.
  revert uniq error. induction rest as [|c rest IH]; intros uniq error; cbn [foldM].
  - intros [= _ ->]. split; [reflexivity | constructor].
  - intros E. apply bind_Ok in E as ([u1 e1] & E1 & E2).
    apply IH in E2 as [-> Hrest].
    apply checkCopayers_each_inv in E1 as [-> Hc].
    split; [reflexivity | constructor; assumption].
Qed.

Lemma checkCopayers_loop_latched (copayers rest : list Copayer) (walletPubKey : string)
  (uniq : gmap string JsNum) :
  foldM (Verifier.checkCopayers_each copayers walletPubKey) rest (uniq, true) = Ok (uniq, true).
Proof.
  induction rest as [|c rest IH]; cbn [foldM]; [reflexivity|].
  unfold Verifier.checkCopayers_each at 1. cbn [mbind result_bind]. exact IH.
Qed.

Lemma checkCopayers_each_rejected (copayers : list Copayer) (walletPubKey : string)
  (uniq : gmap string JsNum) (copayer : Copayer) :
  rejected_entry walletPubKey copayer →
  ∃ uniq', Verifier.checkCopayers_each copayers walletPubKey (uniq, false) copayer = Ok (uniq', true).
Proof.
  unfold rejected_entry, Verifier.checkCopayers_each.
  destruct (post_increment uniq _) as [old u1]. intros Hr.
  destruct (truthy_s (or_s (cp_encryptedName copayer) (cp_name copayer))); cbn [negb orb];
    [|eexists; reflexivity].
  destruct (truthy_s (cp_xPubKey copayer)); cbn [negb orb]; [|eexists; reflexivity].
  destruct (truthy_s (cp_requestPubKey copayer)); cbn [negb orb]; [|eexists; reflexivity].
  destruct (truthy_s (cp_signature copayer)); cbn [negb orb]; [|eexists; reflexivity].
  destruct Hr as [Hr|[Hr|[Hr|[Hr|Hr]]]]; try discriminate Hr.
  rewrite Hr. cbn [mbind result_bind negb]. eexists; reflexivity.
Qed.

(** X1.  [checkCopayers] returns true exactly when the wallet private
    key is set and yields a public key, the roster has [credentials.n]
    entries, every entry carries a name, both keys and a signature of
    the wallet key over its copayer hash, and the local extended public
    key is in the roster. *)
Theorem checkCopayers_true_iff (credentials : Credentials) (copayers : list Copayer) :
  Verifier.checkCopayers credentials copayers = Ok true ↔
  truthy_s (cred_walletPrivKey credentials) = true ∧
  ∃ walletPubKey,
    PrivateKey_toPublicKey (default "" (cred_walletPrivKey credentials)) = Some walletPubKey ∧
    cred_n credentials = Some (Z.of_nat (length copayers)) ∧
    Forall (well_signed walletPubKey) copayers ∧
    cred_xPubKey credentials ∈ List.map cp_xPubKey copayers.
Proof.
  split.
  - unfold Verifier.checkCopayers.
    destruct (truthy_s (cred_walletPrivKey credentials)); cbn [checkState mbind result_bind]; [|discriminate].
    destruct (PrivateKey_toPublicKey _) as [w|]; cbn [lib mbind result_bind]; [|discriminate].
    unfold eq_z. destruct (decide (Some (Z.of_nat (length copayers)) = cred_n credentials)) as [En|En].
    2:{ rewrite bool_decide_false by assumption. discriminate. }
    rewrite bool_decide_true by assumption. cbn [negb].
    destruct (foldM _ copayers _) as [[u e]|err] eqn:El; cbn [mbind result_bind snd]; [|discriminate].
    destruct e; [discriminate|].
    apply checkCopayers_loop_inv in El as [_ Hall].
    unfold includes. destruct (decide (cred_xPubKey credentials ∈ List.map cp_xPubKey copayers)) as [Hin|Hin].
    2:{ rewrite bool_decide_false by assumption. discriminate. }
    intros _. split; [reflexivity|]. exists w. repeat split; try assumption. symmetry. exact En.
  - intros (Hw & w & Hp & Hn & Hall & Hin). apply checkCopayers_accepts with (walletPubKey := w); assumption.
Qed.

(** X2.  The error flag of [checkCopayers] latches: when the entries
    before a rejected entry are all in order, the call returns false
    whatever follows the rejected entry, and no later signature is
    checked (a later entry on which the library would throw does not
    make the call throw). *)
Theorem checkCopayers_stops_at_first_rejected (credentials : Credentials)
  (good : list Copayer) (bad : Copayer) (rest : list Copayer) (walletPubKey : string) :
  truthy_s (cred_walletPrivKey credentials) = true →
  PrivateKey_toPublicKey (default "" (cred_walletPrivKey credentials)) = Some walletPubKey →
  cred_n credentials = Some (Z.of_nat (length (good ++ bad :: rest))) →
  Forall (well_signed walletPubKey) good →
  rejected_entry walletPubKey bad →
  Verifier.checkCopayers credentials (good ++ bad :: rest) = Ok false.
Proof.
  intros Hw Hp Hn Hgood Hbad. unfold Verifier.checkCopayers.
  rewrite Hw, Hp, Hn. cbn [checkState lib mbind result_bind].
  unfold eq_z. rewrite bool_decide_true by reflexivity. cbn [negb].
  rewrite foldM_app.
  destruct (checkCopayers_loop_well_signed (good ++ bad :: rest) good walletPubKey ∅) as [u1 E1];
    [intros k v; rewrite lookup_empty; discriminate | assumption |].
  rewrite E1. cbn [mbind result_bind foldM].
  destruct (checkCopayers_each_rejected (good ++ bad :: rest) walletPubKey u1 bad Hbad) as [u2 E2].
  rewrite E2. cbn [mbind result_bind].
  rewrite checkCopayers_loop_latched. reflexivity.
Qed.

(** X3.  Before it looks at any entry, [checkCopayers] raises an
    invalid-state error when the wallet private key is not set, raises
    the library's error when that key does not parse, and returns false
    when the roster does not have [credentials.n] entries. *)
Theorem checkCopayers_preconditions (credentials : Credentials) (copayers : list Copayer) :
  (truthy_s (cred_walletPrivKey credentials) = false →
     Verifier.checkCopayers credentials copayers = Throw InvalidState) ∧
  (truthy_s (cred_walletPrivKey credentials) = true →
     PrivateKey_toPublicKey (default "" (cred_walletPrivKey credentials)) = None →
     Verifier.checkCopayers credentials copayers = Throw LibraryError) ∧
  (∀ walletPubKey,
     truthy_s (cred_walletPrivKey credentials) = true →
     PrivateKey_toPublicKey (default "" (cred_walletPrivKey credentials)) = Some walletPubKey →
     cred_n credentials ≠ Some (Z.of_nat (length copayers)) →
     Verifier.checkCopayers credentials copayers = Ok false).
Proof.
  unfold Verifier.checkCopayers. split; [|split].
  - intros ->. reflexivity.
  - intros -> ->. reflexivity.
  - intros w -> -> Hn. cbn [checkState lib mbind result_bind].
    unfold eq_z. rewrite bool_decide_false by (intros E; apply Hn; symmetry; exact E). reflexivity.
Qed.

End CheckCopayersMore.

Section CheckCopayersMoreExamples.
Import Reference.

Lemma checkCopayers_stops_at_first_rejected_witness :
  Verifier.checkCopayers Sample.credentials
    ([Sample.copayer "alice" "xpubA" "pub:reqA"] ++
     Sample.copayer_unsigned :: [Sample.copayer "carol" "xpubC" "pub:reqC"]) = Ok false.
Proof.
  apply checkCopayers_stops_at_first_rejected with (walletPubKey := "pub:priv:w").
  - reflexivity.
  - reflexivity.
  - reflexivity.
  - repeat constructor.
  - right. right. right. left. reflexivity.
Defined.

End CheckCopayersMoreExamples.

(** ** checkTxProposalSignature and checkTxProposal *)

Section ProposalSignature.
Context `{Constants} `{CryptoLib} `{Sjcl} `{TransactionLib}.

Lemma checkAddress_undefined (credentials : Credentials) :
  Verifier.checkAddress credentials None ≠ Ok true.
Proof.
  unfold Verifier.checkAddress. destruct (isComplete credentials); discriminate.
Qed.

Lemma checkTxProposalSignature_true_inv (credentials : Credentials) (txp : Txp) :
  Verifier.checkTxProposalSignature credentials txp = Ok true →
  truthy_s (txp_creatorId txp) = true ∧
  isComplete credentials = true ∧
  ∃ key t hash,
    signer_established credentials txp key ∧
    version_ge_3 (txp_version txp) = true ∧
    Utils.buildTx txp = Ok t ∧
    tx_uncheckedSerialize t = Some hash ∧
    Utils.verifyMessage hash (txp_proposalSignature txp) key = Ok true ∧
    Verifier.checkAddress credentials (txp_changeAddress txp) = Ok true.
Proof.
  unfold Verifier.checkTxProposalSignature, signer_established.
  destruct (truthy_s (txp_creatorId txp)); cbn [checkArgument mbind result_bind]; [|discriminate].
  destruct (isComplete credentials); cbn [checkState mbind result_bind]; [|discriminate].
  fold (creator_entry credentials txp).
  destruct (creator_entry credentials txp) as [ck|]; [|discriminate].
  pose (rest := fun creatorSigningPubKey : option string =>
    if negb (truthy_s creatorSigningPubKey) then Ok false else
    (if version_ge_3 (txp_version txp) then Utils.buildTx txp ≫= λ t, lib (tx_uncheckedSerialize t)
     else Throw NotSupported) ≫= λ hash,
    Utils.verifyMessage hash (txp_proposalSignature txp) (default "" creatorSigningPubKey) ≫= λ verified,
    if negb verified then Ok false else
    Verifier.checkAddress credentials (txp_changeAddress txp) ≫= λ ok,
    if negb ok then Ok false else Ok true).
  assert (Hrest : ∀ k, rest k = Ok true →
    ∃ key t hash, k = Some key ∧ key ≠ "" ∧ version_ge_3 (txp_version txp) = true ∧
      Utils.buildTx txp = Ok t ∧ tx_uncheckedSerialize t = Some hash ∧
      Utils.verifyMessage hash (txp_proposalSignature txp) key = Ok true ∧
      Verifier.checkAddress credentials (txp_changeAddress txp) = Ok true).
  { intros k. unfold rest. clear rest.
    destruct (truthy_s k) eqn:Ek; cbn [negb]; [|discriminate].
    apply truthy_s_inv in Ek as (key & -> & Hkey). change (default "" (Some key)) with key.
    destruct (version_ge_3 (txp_version txp)); cbn [mbind result_bind]; [|discriminate].
    destruct (Utils.buildTx txp) as [t|]; cbn [mbind result_bind]; [|discriminate].
    destruct (tx_uncheckedSerialize t) as [hash|] eqn:Es; cbn [lib mbind result_bind]; [|discriminate].
    destruct (Utils.verifyMessage hash _ key) as [[|]|] eqn:Evm; cbn [negb mbind result_bind];
      try discriminate.
    destruct (Verifier.checkAddress credentials _) as [[|]|] eqn:Eca; cbn [negb mbind result_bind];
      try discriminate.
    intros _. exists key, t, hash. repeat split; try reflexivity; assumption. }
  destruct (truthy_s (txp_proposalSignaturePubKey txp)) eqn:Epk.
  - destruct (Utils.verifyRequestPubKey _ _ (ring_xPubKey ck)) as [[|]|] eqn:Ev;
      cbn [negb mbind result_bind]; try discriminate.
    intros E. apply (Hrest (txp_proposalSignaturePubKey txp)) in E
      as (key & t & hash & Ek & Hkey & Hv & Eb & Es & Evm & Eca).
    split; [reflexivity|]. split; [reflexivity|]. exists key, t, hash.
    split; [|repeat split; assumption].
    exists ck. split; [reflexivity|]. split; [assumption|]. left. repeat split; assumption.
  - cbn [mbind result_bind]. intros E. apply (Hrest (ring_requestPubKey ck)) in E
      as (key & t & hash & Ek & Hkey & Hv & Eb & Es & Evm & Eca).
    split; [reflexivity|]. split; [reflexivity|]. exists key, t, hash.
    split; [|repeat split; assumption].
    exists ck. split; [reflexivity|]. split; [assumption|]. right. split; [reflexivity | assumption].
Qed.

Lemma checkTxProposalSignature_true_intro (credentials : Credentials) (txp : Txp)
  (key : string) (t : Transaction) (hash : string) :
  truthy_s (txp_creatorId txp) = true →
  isComplete credentials = true →
  signer_established credentials txp key →
  version_ge_3 (txp_version txp) = true →
  Utils.buildTx txp = Ok t →
  tx_uncheckedSerialize t = Some hash →
  Utils.verifyMessage hash (txp_proposalSignature txp) key = Ok true →
  Verifier.checkAddress credentials (txp_changeAddress txp) = Ok true →
  Verifier.checkTxProposalSignature credentials txp = Ok true.
Proof.
  intros Hid Hc (ck & Eck & Hkey & Hs) Hv Eb Es Evm Eca.
  unfold Verifier.checkTxProposalSignature.
  rewrite Hid, Hc. cbn [checkArgument checkState mbind result_bind].
  fold (creator_entry credentials txp). rewrite Eck.
  destruct Hs as [(Epk & Ev & Ek)|(Epk & Ek)].
  - rewrite Epk, Ev. cbn [negb mbind result_bind]. rewrite Epk. cbn [negb].
    rewrite Hv, Eb. cbn [mbind result_bind]. rewrite Es. cbn [lib mbind result_bind].
    rewrite Ek. change (default "" (Some key)) with key. rewrite Evm. cbn [negb mbind result_bind].
    rewrite Eca. reflexivity.
  - rewrite Epk. cbn [mbind result_bind]. rewrite Ek, (truthy_s_Some key Hkey). cbn [negb].
    rewrite Hv, Eb. cbn [mbind result_bind]. rewrite Es. cbn [lib mbind result_bind].
    change (default "" (Some key)) with key.
    rewrite Evm. cbn [negb mbind result_bind]. rewrite Eca. reflexivity.
Qed.

(** X4.  [checkTxProposalSignature] returns true exactly when the
    proposal names its creator, the credentials are complete, the
    creator is in the ring and a signing key is established, the version
    is 3 or more, [buildTx] rebuilds the transaction, and the proposal's
    signature verifies under the signing key over the serialization of
    the rebuilt transaction, and [checkAddress] accepts the change
    address. *)
Theorem checkTxProposalSignature_true_iff (credentials : Credentials) (txp : Txp) :
  Verifier.checkTxProposalSignature credentials txp = Ok true ↔
  truthy_s (txp_creatorId txp) = true ∧
  isComplete credentials = true ∧
  ∃ key t hash,
    signer_established credentials txp key ∧
    version_ge_3 (txp_version txp) = true ∧
    Utils.buildTx txp = Ok t ∧
    tx_uncheckedSerialize t = Some hash ∧
    Utils.verifyMessage hash (txp_proposalSignature txp) key = Ok true ∧
    Verifier.checkAddress credentials (txp_changeAddress txp) = Ok true.
Proof.
  split; [apply checkTxProposalSignature_true_inv|].
  intros (Hid & Hc & key & t & hash & Hs & Hv & Eb & Es & Evm & Eca).
  apply checkTxProposalSignature_true_intro with (key := key) (t := t) (hash := hash); assumption.
Qed.

(** X5.  A proposal that [checkTxProposalSignature] accepts carries a
    change address, which [checkAddress] accepts, and the transaction
    rebuilt from it keeps the fee bound: the difference between its
    inputs and its outputs is between 0 and MAX_TX_FEE. *)
Theorem checkTxProposalSignature_true_bounds (credentials : Credentials) (txp : Txp) :
  Verifier.checkTxProposalSignature credentials txp = Ok true →
  ∃ t changeAddress,
    Utils.buildTx txp = Ok t ∧
    fee_in_bounds txp t ∧
    txp_changeAddress txp = Some changeAddress ∧
    Verifier.checkAddress credentials (Some changeAddress) = Ok true.
Proof.
  intros E. apply checkTxProposalSignature_true_inv in E
    as (_ & _ & key & t & hash & _ & _ & Eb & _ & _ & Eca).
  destruct (txp_changeAddress txp) as [a|] eqn:Ea; [|exfalso; exact (checkAddress_undefined _ Eca)].
  exists t, a. split; [assumption|]. split; [|split; [reflexivity | assumption]].
  unfold Utils.buildTx in Eb. apply bind_Ok in Eb as (t1 & _ & Eb). apply bind_Ok in Eb as (t2 & _ & Eb).
  apply buildTx_validate_Ok in Eb as [-> Hb]. exact Hb.
Qed.

(** X6.  The preconditions of [checkTxProposalSignature] come in this
    order: a missing or empty [creatorId] raises an invalid-argument
    error whatever the credentials are, incomplete credentials raise an
    invalid-state error, and a creator that is not in the ring makes the
    call return false, whatever the version and the signature are. *)
Theorem checkTxProposalSignature_preconditions (credentials : Credentials) (txp : Txp) :
  (truthy_s (txp_creatorId txp) = false →
     Verifier.checkTxProposalSignature credentials txp = Throw InvalidArgument) ∧
  (truthy_s (txp_creatorId txp) = true → isComplete credentials = false →
     Verifier.checkTxProposalSignature credentials txp = Throw InvalidState) ∧
  (truthy_s (txp_creatorId txp) = true → isComplete credentials = true →
     creator_entry credentials txp = None →
     Verifier.checkTxProposalSignature credentials txp = Ok false).
Proof.
  unfold Verifier.checkTxProposalSignature. split; [|split].
  - intros ->. reflexivity.
  - intros -> ->. reflexivity.
  - intros -> -> Eck. cbn [checkArgument checkState mbind result_bind].
    fold (creator_entry credentials txp). rewrite Eck. reflexivity.
Qed.

(** X7.  [checkTxProposal] returns true exactly when
    [checkTxProposalSignature] returns true and, if a payment-protocol
    target is given, [checkPaypro] returns true for it.  When the
    signature check returns false the target is not looked at, and
    omitting [opts] is the same as giving no target. *)
Theorem checkTxProposal_spec (credentials : Credentials) (txp : Txp) (opts : option Verifier.CheckOpts) :
  (Verifier.checkTxProposal credentials txp opts = Ok true ↔
     Verifier.checkTxProposalSignature credentials txp = Ok true ∧
     ∀ paypro, opts ≫= Verifier.opts_paypro = Some paypro → Verifier.checkPaypro txp paypro = Ok true) ∧
  (Verifier.checkTxProposalSignature credentials txp = Ok false →
     Verifier.checkTxProposal credentials txp opts = Ok false) ∧
  Verifier.checkTxProposal credentials txp None =
    Verifier.checkTxProposal credentials txp (Some {| Verifier.opts_paypro := None |}).
Proof.
  unfold Verifier.checkTxProposal. split; [|split].
  - destruct (Verifier.checkTxProposalSignature credentials txp) as [[|]|e]; cbn [negb mbind result_bind].
    + destruct opts as [[[pp|]]|]; cbn [default from_option id Verifier.opts_paypro mbind option_bind].
      * destruct (Verifier.checkPaypro txp pp) as [[|]|e] eqn:Ep; cbn [negb mbind result_bind].
        -- split; [|reflexivity]. intros _. split; [reflexivity|]. intros pp' [= <-]. exact Ep.
        -- split; [discriminate|]. intros [_ Hp]. specialize (Hp pp eq_refl). rewrite Ep in Hp. discriminate Hp.
        -- split; [discriminate|]. intros [_ Hp]. specialize (Hp pp eq_refl). rewrite Ep in Hp. discriminate Hp.
      * split; [|reflexivity]. intros _. split; [reflexivity|]. intros pp' [=].
      * split; [|reflexivity]. intros _. split; [reflexivity|]. intros pp' [=].
    + split; [discriminate|]. intros [[=] _].
    + split; [discriminate|]. intros [[=] _].
  - intros ->. reflexivity.
  - reflexivity.
Qed.

End ProposalSignature.

(** X8.  For a proposal whose version is not 3 or more, [checkPaypro]
    returns true exactly when the proposal's own [toAddress] and
    [amount] equal the target's, and false otherwise; for a version of 3
    or more without an output list, or with an empty one, it raises a
    type error instead of returning false. *)
Theorem checkPaypro_legacy_and_empty (txp : Txp) (payproOpts : PayproOpts) :
  (version_ge_3 (txp_version txp) = false →
     Verifier.checkPaypro txp payproOpts =
       Ok (bool_decide (txp_toAddress txp = pp_toAddress payproOpts ∧
                        txp_amount txp = pp_amount payproOpts))) ∧
  (version_ge_3 (txp_version txp) = true →
     txp_outputs txp = None ∨ txp_outputs txp = Some [] →
     Verifier.checkPaypro txp payproOpts = Throw TypeError).
Proof.
  unfold Verifier.checkPaypro. split.
  - intros ->. cbn [mbind result_bind]. f_equal. unfold eq_s, eq_z.
    destruct (decide (txp_toAddress txp = pp_toAddress payproOpts)) as [Ea|Ea];
      destruct (decide (txp_amount txp = pp_amount payproOpts)) as [Em|Em].
    + rewrite !bool_decide_true; tauto.
    + rewrite (bool_decide_false (_ ∧ _)) by tauto.
      rewrite (bool_decide_false (txp_amount txp = _)) by assumption. apply andb_false_r.
    + rewrite (bool_decide_false (_ ∧ _)) by tauto.
      rewrite (bool_decide_false (txp_toAddress txp = _)) by assumption. reflexivity.
    + rewrite (bool_decide_false (_ ∧ _)) by tauto.
      rewrite (bool_decide_false (txp_toAddress txp = _)) by assumption. reflexivity.
  - intros -> [->| ->]; reflexivity.
Qed.

Section ProposalSignatureExamples.
Import Reference.

Example checkTxProposalSignature_signed :
  Verifier.checkTxProposalSignature Sample.credentials Sample.txp_signed = Ok true.
Proof. vm_compute. reflexivity. Qed.

Lemma checkTxProposalSignature_true_bounds_witness :
  ∃ t changeAddress,
    Utils.buildTx Sample.txp_signed = Ok t ∧
    fee_in_bounds Sample.txp_signed t ∧
    txp_changeAddress Sample.txp_signed = Some changeAddress ∧
    Verifier.checkAddress Sample.credentials (Some changeAddress) = Ok true.
Proof.
  apply (checkTxProposalSignature_true_bounds Sample.credentials Sample.txp_signed).
  vm_compute. reflexivity.
Defined.

End ProposalSignatureExamples.

(** ** checkProposalCreation: what an accepted proposal is *)

Section ProposalCreation.
Context `{Sjcl}.

Lemma checkProposalCreation_output_None (encryptingKey : string) (o1 o2 : TxpOutput) :
  Verifier.checkProposalCreation_output encryptingKey o1 o2 = Ok None ↔
  output_matches encryptingKey o1 o2.
Proof.
  unfold Verifier.checkProposalCreation_output, output_matches.
  destruct (Verifier.strEqual (o_toAddress o1) (o_toAddress o2)); cbn [negb].
  2:{ split; [discriminate | intros [[=] _]]. }
  destruct (Verifier.strEqual (o_script o1) (o_script o2)); cbn [negb].
  2:{ split; [discriminate | intros (_ & [=] & _)]. }
  destruct (Z.eqb_spec (o_amount o1) (o_amount o2)) as [Ea|Ea]; cbn [negb].
  2:{ split; [discriminate | intros (_ & _ & Ea' & _); contradiction]. }
  destruct (decryptMessage_Ok (o_message o2) encryptingKey) as [d Ed]. rewrite Ed.
  cbn [mbind result_bind try_catch].
  destruct (Verifier.strEqual (o_message o1) d) eqn:Em; cbn [negb].
  - split; [|reflexivity]. intros _. repeat split; try assumption. exists d. split; [reflexivity | assumption].
  - split; [discriminate|]. intros (_ & _ & _ & d' & [= <-] & Em'). rewrite Em in Em'. discriminate Em'.
Qed.

Lemma checkProposalCreation_output_Some (encryptingKey : string) (o1 o2 : TxpOutput) (b : bool) :
  Verifier.checkProposalCreation_output encryptingKey o1 o2 = Ok (Some b) → b = false.
Proof.
  unfold Verifier.checkProposalCreation_output.
  destruct (negb (Verifier.strEqual (o_toAddress o1) (o_toAddress o2))); [intros [= <-]; reflexivity|].
  destruct (negb (Verifier.strEqual (o_script o1) (o_script o2))); [intros [= <-]; reflexivity|].
  destruct (negb (o_amount o1 =? o_amount o2)); [intros [= <-]; reflexivity|].
  destruct (decryptMessage_Ok (o_message o2) encryptingKey) as [d Ed]. rewrite Ed.
  cbn [mbind result_bind try_catch].
  destruct (negb _); [intros [= <-]; reflexivity | discriminate].
Qed.

Lemma checkProposalCreation_loop_Some (encryptingKey : string) (os1 os2 : list TxpOutput) (b : bool) :
  Verifier.checkProposalCreation_loop encryptingKey os1 os2 = Ok (Some b) → b = false.
Proof.
  revert os2. induction os1 as [|o1 os1 IH]; intros [|o2 os2]; cbn [Verifier.checkProposalCreation_loop];
    try discriminate.
  destruct (Verifier.checkProposalCreation_output encryptingKey o1 o2) as [[b'|]|e] eqn:E;
    cbn [mbind result_bind]; [|apply IH|discriminate].
  intros [= <-]. apply (checkProposalCreation_output_Some _ _ _ _ E).
Qed.

Lemma checkProposalCreation_loop_None (encryptingKey : string) (os1 os2 : list TxpOutput) :
  length os1 = length os2 →
  (Verifier.checkProposalCreation_loop encryptingKey os1 os2 = Ok None ↔
   Forall2 (output_matches encryptingKey) os1 os2).
Proof.
  revert os2. induction os1 as [|o1 os1 IH]; intros [|o2 os2]; cbn [Verifier.checkProposalCreation_loop length];
    try discriminate.
  - intros _. split; [constructor | reflexivity].
  - intros [= Hl]. specialize (IH os2 Hl).
    destruct (Verifier.checkProposalCreation_output encryptingKey o1 o2) as [[b'|]|e] eqn:E;
      cbn [mbind result_bind].
    + split; [discriminate|]. intros Hf. apply Forall2_cons_1 in Hf as [Hm _].
      apply checkProposalCreation_output_None in Hm. rewrite E in Hm. discriminate Hm.
    + apply checkProposalCreation_output_None in E. rewrite IH. split.
      * intros Hf. constructor; assumption.
      * intros Hf. apply Forall2_cons_1 in Hf as [_ Hf]. exact Hf.
    + split; [discriminate|]. intros Hf. apply Forall2_cons_1 in Hf as [Hm _].
      apply checkProposalCreation_output_None in Hm. rewrite E in Hm. discriminate Hm.
Qed.

(** X9.  [checkProposalCreation] returns true exactly when the stored
    proposal has an output list that agrees with the submitted one
    output by output (destination, script, amount, and message after
    decryption), the change address agrees if one was submitted, the fee
    per kB agrees if one was submitted, the payment-protocol URL agrees,
    the stored message agrees with the decrypted submitted message, and
    the custom data agree if some were submitted. *)
Theorem checkProposalCreation_true_iff (args : ProposalArgs) (txp : Txp) (encryptingKey : string) :
  Verifier.checkProposalCreation args txp encryptingKey = Ok true ↔
  ∃ outputs,
    txp_outputs txp = Some outputs ∧
    Forall2 (output_matches encryptingKey) outputs (args_outputs args) ∧
    (truthy_s (args_changeAddress args) = true →
       Verifier.strEqual (addr_address <$> txp_changeAddress txp) (args_changeAddress args) = true) ∧
    (is_Some (args_feePerKb args) → txp_feePerKb txp = args_feePerKb args) ∧
    Verifier.strEqual (txp_payProUrl txp) (args_payProUrl args) = true ∧
    (∃ decryptedMessage,
       Utils.decryptMessage (args_message args) encryptingKey = Ok decryptedMessage ∧
       Verifier.strEqual (txp_message txp) decryptedMessage = true) ∧
    (truthy_s (args_customData args) = true → txp_customData txp = args_customData args).
Proof.
  unfold Verifier.checkProposalCreation.
  destruct (txp_outputs txp) as [outputs|]; [|split; [discriminate | intros (o & [=] & _)]].
  destruct (decide (length outputs = length (args_outputs args))) as [Hl|Hl].
  2:{ rewrite bool_decide_false by assumption. cbn [negb]. split; [discriminate|].
      intros (o & [= <-] & Hf & _). apply Forall2_length in Hf. contradiction. }
  rewrite bool_decide_true by assumption. cbn [negb].
  pose proof (checkProposalCreation_loop_None encryptingKey outputs (args_outputs args) Hl) as Hloop.
  destruct (Verifier.checkProposalCreation_loop encryptingKey outputs (args_outputs args)) as [[b|]|e] eqn:El;
    cbn [mbind result_bind].
  - apply checkProposalCreation_loop_Some in El as ->. split; [discriminate|].
    intros (o & [= <-] & Hf & _). apply Hloop in Hf. discriminate Hf.
  - assert (Hf : Forall2 (output_matches encryptingKey) outputs (args_outputs args)) by (apply Hloop; reflexivity).
    clear Hloop El.
    destruct (decryptMessage_Ok (args_message args) encryptingKey) as [d Ed]. rewrite Ed.
    cbn [mbind result_bind try_catch]. unfold eq_z, eq_s.
    destruct (args_feePerKb args) as [fee|].
    + rewrite (bool_decide_true (is_Some (Some fee))) by (eexists; reflexivity).
      destruct (truthy_s (args_changeAddress args));
        destruct (Verifier.strEqual (addr_address <$> txp_changeAddress txp) (args_changeAddress args));
        destruct (Verifier.strEqual (txp_payProUrl txp) (args_payProUrl args));
        destruct (Verifier.strEqual (txp_message txp) d) eqn:Em;
        destruct (truthy_s (args_customData args));
        repeat case_bool_decide; cbn [negb andb];
        (split;
         [ first [ discriminate
                 | intros _; exists outputs; split; [reflexivity|]; split; [assumption|];
                   naive_solver ]
         | first [ reflexivity
                 | intros (o & _ & _ & Hca & Hfee & Hurl & (d' & Ed' & Em') & Hcd); exfalso;
                   injection Ed' as <-; first [congruence | naive_solver] ] ]).
    + rewrite (bool_decide_false (is_Some None)) by (intros [? [=]]).
      destruct (truthy_s (args_changeAddress args));
        destruct (Verifier.strEqual (addr_address <$> txp_changeAddress txp) (args_changeAddress args));
        destruct (Verifier.strEqual (txp_payProUrl txp) (args_payProUrl args));
        destruct (Verifier.strEqual (txp_message txp) d) eqn:Em;
        destruct (truthy_s (args_customData args));
        repeat case_bool_decide; cbn [negb andb];
        (split;
         [ first [ discriminate
                 | intros _; exists outputs; split; [reflexivity|]; split; [assumption|];
                   naive_solver ]
         | first [ reflexivity
                 | intros (o & _ & _ & Hca & Hfee & Hurl & (d' & Ed' & Em') & Hcd); exfalso;
                   injection Ed' as <-; first [congruence | naive_solver] ] ]).
  - split; [discriminate|].
    destruct (checkProposalCreation_loop_Ok encryptingKey outputs (args_outputs args)) as [r Er].
    rewrite Er in El. discriminate El.
Qed.

(** X10.  [checkProposalCreation] returns false, and does not raise,
    when the stored and the submitted proposal differ in their number of
    outputs, and when at some position the two outputs differ in their
    amount. *)
Theorem checkProposalCreation_mismatch (args : ProposalArgs) (txp : Txp) (encryptingKey : string)
  (outputs : list TxpOutput) :
  txp_outputs txp = Some outputs →
  (length outputs ≠ length (args_outputs args) →
     Verifier.checkProposalCreation args txp encryptingKey = Ok false) ∧
  (∀ i o1 o2, outputs !! i = Some o1 → args_outputs args !! i = Some o2 →
     length outputs = length (args_outputs args) →
     o_amount o1 ≠ o_amount o2 →
     Verifier.checkProposalCreation args txp encryptingKey = Ok false).
Proof.
  intros Ho. unfold Verifier.checkProposalCreation. rewrite Ho. split.
  - intros Hl. rewrite bool_decide_false by assumption. reflexivity.
  - intros i o1 o2 H1 H2 Hl Ha. rewrite bool_decide_true by assumption. cbn [negb].
    destruct (checkProposalCreation_loop_Ok encryptingKey outputs (args_outputs args)) as [[b|] El];
      rewrite El; cbn [mbind result_bind].
    + apply checkProposalCreation_loop_Some in El as ->. reflexivity.
    + exfalso. apply (checkProposalCreation_loop_None _ _ _ Hl) in El.
      destruct (Forall2_lookup_lr _ _ _ _ _ _ El H1 H2) as (_ & _ & Hm & _). contradiction.
Qed.

End ProposalCreation.

Section ProposalCreationExamples.
Import Reference.

Lemma checkProposalCreation_mismatch_witness :
  Verifier.checkProposalCreation Sample.args_hello Sample.txp_signed "k" = Ok false.
Proof.
  apply (proj1 (checkProposalCreation_mismatch Sample.args_hello Sample.txp_signed "k"
                  [Sample.pay "addrA" 50000000] eq_refl)).
  discriminate.
Defined.

End ProposalCreationExamples.

(** ** decryptMessage inside checkProposalCreation *)

Section DecryptionAbsorbed.
Context `{Sjcl}.

Lemma checkProposalCreation_Ok (args : ProposalArgs) (txp : Txp) (encryptingKey : string)
  (outputs : list TxpOutput) :
  txp_outputs txp = Some outputs →
  ∃ b, Verifier.checkProposalCreation args txp encryptingKey = Ok b.
Proof.
  intros Ho. unfold Verifier.checkProposalCreation. rewrite Ho.
  destruct (negb (bool_decide (length outputs = length (args_outputs args)))); [eexists; reflexivity|].
  destruct (checkProposalCreation_loop_Ok encryptingKey outputs (args_outputs args)) as [[b|] E];
    rewrite E; cbn [mbind result_bind]; [eexists; reflexivity|].
  destruct (_ && _); [eexists; reflexivity|].
  destruct (_ && _); [eexists; reflexivity|].
  destruct (negb (Verifier.strEqual (txp_payProUrl txp) (args_payProUrl args))); [eexists; reflexivity|].
  destruct (decryptMessage_Ok (args_message args) encryptingKey) as [d Ed]. rewrite Ed.
  cbn [mbind result_bind try_catch].
  destruct (negb _); [eexists; reflexivity|]. destruct (_ && _); eexists; reflexivity.
Qed.

Lemma decryption_fails_Ok (cyphertextJson : option string) (encryptingKey : string) :
  decryption_fails cyphertextJson encryptingKey →
  Utils.decryptMessage cyphertextJson encryptingKey = Ok cyphertextJson.
Proof.
  intros Hf.
  destruct (decryptMessage_cases cyphertextJson encryptingKey) as [[_ E]|(key & c & p & Ek & Ec & Ed & _)];
    [exact E|].
  rewrite (Hf key c Ek Ec) in Ed. discriminate Ed.
Qed.

(** C7, amended.  [decryptMessage] never raises: it returns the
    plaintext when sjcl decrypts, and the ciphertext it was given,
    unchanged, when decryption fails.  Inside [checkProposalCreation] a
    decryption failure is therefore never propagated: for a proposal
    that has an output list the call returns a boolean.  The message
    that could not be decrypted is compared as it was submitted, for an
    output message and for the overall message alike: the call returns
    false when the stored message differs from the submitted string,
    and can return true only when the two are equal (or both empty). *)
Theorem decryption_failure_absorbed (cyphertextJson : option string) (encryptingKey : string) :
  (∃ v, Utils.decryptMessage cyphertextJson encryptingKey = Ok v) ∧
  (∀ key c p, base64_toBits encryptingKey = Some key → cyphertextJson = Some c →
     sjcl_decrypt key c = Some p →
     Utils.decryptMessage cyphertextJson encryptingKey = Ok (Some p)) ∧
  (decryption_fails cyphertextJson encryptingKey →
     Utils.decryptMessage cyphertextJson encryptingKey = Ok cyphertextJson) ∧
  (∀ args txp outputs, txp_outputs txp = Some outputs →
     (∃ b, Verifier.checkProposalCreation args txp encryptingKey = Ok b) ∧
     (decryption_fails (args_message args) encryptingKey →
        (Verifier.checkProposalCreation args txp encryptingKey = Ok true →
         Verifier.strEqual (txp_message txp) (args_message args) = true) ∧
        (Verifier.strEqual (txp_message txp) (args_message args) = false →
         Verifier.checkProposalCreation args txp encryptingKey = Ok false)) ∧
     (∀ i o1 o2, outputs !! i = Some o1 → args_outputs args !! i = Some o2 →
        decryption_fails (o_message o2) encryptingKey →
        (Verifier.checkProposalCreation args txp encryptingKey = Ok true →
         Verifier.strEqual (o_message o1) (o_message o2) = true) ∧
        (Verifier.strEqual (o_message o1) (o_message o2) = false →
         Verifier.checkProposalCreation args txp encryptingKey = Ok false))).
Proof.
  split; [apply decryptMessage_Ok|]. split; [|split; [apply decryption_fails_Ok|]].
  - intros key c p Ek Ec Ed. unfold Utils.decryptMessage. rewrite Ek, Ec. cbn [lib mbind result_bind].
    rewrite Ed. reflexivity.
  - intros args txp outputs Ho.
    pose proof (checkProposalCreation_Ok args txp encryptingKey outputs Ho) as [b Eb].
    split; [exists b; exact Eb|].
    assert (Hloop : Verifier.checkProposalCreation args txp encryptingKey = Ok true →
                    length outputs = length (args_outputs args) ∧
                    Verifier.checkProposalCreation_loop encryptingKey outputs (args_outputs args) = Ok None).
    { unfold Verifier.checkProposalCreation. rewrite Ho.
      destruct (decide (length outputs = length (args_outputs args))) as [Hl|Hl];
        [rewrite bool_decide_true by assumption | rewrite bool_decide_false by assumption; discriminate].
      cbn [negb].
      destruct (Verifier.checkProposalCreation_loop encryptingKey outputs (args_outputs args))
        as [[b'|]|e] eqn:El; cbn [mbind result_bind]; [|intros _; split; [assumption | reflexivity]|discriminate].
      apply checkProposalCreation_loop_Some in El as ->. discriminate. }
    assert (Hmsg : decryption_fails (args_message args) encryptingKey →
                   Verifier.checkProposalCreation args txp encryptingKey = Ok true →
                   Verifier.strEqual (txp_message txp) (args_message args) = true).
    { intros Hf Et. destruct (Hloop Et) as [Hl El]. revert Et.
      unfold Verifier.checkProposalCreation. rewrite Ho, El.
      rewrite bool_decide_true by assumption. cbn [negb mbind result_bind].
      destruct (_ && _); [discriminate|]. destruct (_ && _); [discriminate|].
      destruct (negb (Verifier.strEqual (txp_payProUrl txp) (args_payProUrl args))); [discriminate|].
      rewrite (decryption_fails_Ok _ _ Hf). cbn [mbind result_bind try_catch].
      destruct (Verifier.strEqual (txp_message txp) (args_message args)); [reflexivity | discriminate]. }
    assert (Hout : ∀ i o1 o2, outputs !! i = Some o1 → args_outputs args !! i = Some o2 →
                   decryption_fails (o_message o2) encryptingKey →
                   Verifier.checkProposalCreation args txp encryptingKey = Ok true →
                   Verifier.strEqual (o_message o1) (o_message o2) = true).
    { intros i o1 o2 H1 H2 Hf Et. destruct (Hloop Et) as [Hl El].
      apply (checkProposalCreation_loop_None _ _ _ Hl) in El.
      destruct (Forall2_lookup_lr _ _ _ _ _ _ El H1 H2) as (_ & _ & _ & d & Ed & Em).
      rewrite (decryption_fails_Ok _ _ Hf) in Ed. injection Ed as <-. exact Em. }
    split.
    + intros Hf. split; [apply Hmsg; exact Hf|]. intros Hne.
      destruct b; [|exact Eb]. rewrite (Hmsg Hf Eb) in Hne. discriminate Hne.
    + intros i o1 o2 H1 H2 Hf. split; [apply (Hout i); assumption|]. intros Hne.
      destruct b; [|exact Eb]. rewrite (Hout i o1 o2 H1 H2 Hf Eb) in Hne. discriminate Hne.
Qed.

End DecryptionAbsorbed.

Section DecryptionAbsorbedExamples.
Import Reference.

Lemma decryption_failure_absorbed_witness :
  Utils.decryptMessage (Some "hello") "k" = Ok (Some "hello") ∧
  Utils.decryptMessage (Some "enc(k):hello") "k" = Ok (Some "hello").
Proof.
  split.
  - apply (proj1 (proj2 (proj2 (decryption_failure_absorbed (Some "hello") "k")))).
    intros key c [= <-] [= <-]. reflexivity.
  - refine (proj1 (proj2 (decryption_failure_absorbed (Some "enc(k):hello") "k")) _ _ _ eq_refl eq_refl _).
    reflexivity.
Defined.

End DecryptionAbsorbedExamples.

(** ** deriveAddress *)

Lemma mapM_Ok {A B} (f : A → result B) (l : list A) (ys : list B) :
  mapM f l = Ok ys ↔ Forall2 (λ x y, f x = Ok y) l ys.
Proof.
  revert ys. induction l as [|x l IH]; intros ys; cbn [mapM].
  - split; [intros [= <-]; constructor | intros Hf; inversion Hf; reflexivity].
  - split.
    + intros E. apply bind_Ok in E as (y & Ey & E). apply bind_Ok in E as (ys' & Eys & [= <-]).
      constructor; [assumption | apply IH; assumption].
    + intros Hf. inversion Hf as [|? y ? ys' Ey Hys]; subst.
      rewrite Ey. cbn [mbind result_bind]. apply IH in Hys. rewrite Hys. reflexivity.
Qed.

Lemma lib_Ok {A} (r : option A) (a : A) : lib r = Ok a ↔ r = Some a.
Proof. destruct r; simpl; split; congruence. Qed.

Section DeriveAddress.
Context `{Constants} `{CryptoLib}.

(** X11.  When [deriveAddress] returns, the script type is one of the
    two known ones, the path is echoed, the public keys are the children
    of the ring's extended keys at that path, one per ring entry and in
    ring order, and the address is the multisig address over those keys
    for the multisig type, or the address of the only key for the
    single-signature type. *)
Theorem deriveAddress_Ok (scriptType : option string) (publicKeyRing : list RingEntry)
  (path : string) (m : option Z) (network : string) (d : DerivedAddress) :
  Utils.deriveAddress scriptType publicKeyRing path m network = Ok d →
  Utils.is_script_type scriptType = true ∧
  da_path d = path ∧
  Forall2 (λ item key, HDPublicKey_deriveChild (ring_xPubKey item) path = Some key)
    publicKeyRing (da_publicKeys d) ∧
  ((scriptType = Some SCRIPT_TYPES_P2SH ∧
    Address_createMultisig (da_publicKeys d) m network = Some (da_address d)) ∨
   (scriptType = Some SCRIPT_TYPES_P2PKH ∧
    ∃ key, da_publicKeys d = [key] ∧ Address_fromPublicKey key network = Some (da_address d))).
Proof.
  unfold Utils.deriveAddress. intros E.
  apply bind_Ok in E as (u & Et & E). apply bind_Ok in E as (keys & Ek & E).
  apply bind_Ok in E as (a & Ea & [= <-]). cbn [da_path da_publicKeys da_address].
  split; [destruct (Utils.is_script_type scriptType); [reflexivity | discriminate Et]|].
  split; [reflexivity|]. split.
  - apply mapM_Ok in Ek. eapply Forall2_impl; [exact Ek|]. intros item key Hk. apply lib_Ok. exact Hk.
  - unfold eq_s in Ea. case_bool_decide as E1.
    + left. split; [assumption | apply lib_Ok; assumption].
    + case_bool_decide as E2; [|discriminate Ea]. right. split; [assumption|].
      apply bind_Ok in Ea as (u' & El & Ea). apply bind_Ok in Ea as (k & Ek0 & Ea).
      apply checkState_Ok in El. apply Z.eqb_eq in El. apply lib_Ok in Ek0, Ea.
      exists k. split; [|assumption].
      destruct keys as [|k' [|k'' keys]]; cbn [length] in El; try lia.
      cbn in Ek0. injection Ek0 as ->. reflexivity.
Qed.

(** X12.  [deriveAddress] raises an invalid-argument error on a script
    type that is not one of the two known ones, before it derives any
    key; with a known type it raises the library's error when some ring
    entry has no child key at the path; and for the single-signature
    type it raises an invalid-state error when all keys derive but the
    ring does not hold exactly one entry. *)
Theorem deriveAddress_errors (scriptType : option string) (publicKeyRing : list RingEntry)
  (path : string) (m : option Z) (network : string) :
  (Utils.is_script_type scriptType = false →
     Utils.deriveAddress scriptType publicKeyRing path m network = Throw InvalidArgument) ∧
  (Utils.is_script_type scriptType = true →
     (∃ item, item ∈ publicKeyRing ∧ HDPublicKey_deriveChild (ring_xPubKey item) path = None) →
     Utils.deriveAddress scriptType publicKeyRing path m network = Throw LibraryError) ∧
  (scriptType = Some SCRIPT_TYPES_P2PKH → SCRIPT_TYPES_P2SH ≠ SCRIPT_TYPES_P2PKH →
     (∀ item, item ∈ publicKeyRing → is_Some (HDPublicKey_deriveChild (ring_xPubKey item) path)) →
     length publicKeyRing ≠ 1%nat →
     Utils.deriveAddress scriptType publicKeyRing path m network = Throw InvalidState).
Proof.
  unfold Utils.deriveAddress. split; [|split].
  - intros ->. reflexivity.
  - intros -> (item & Hin & Hnone). cbn [checkArgument mbind result_bind].
    assert (Hm : mapM (λ item, lib (HDPublicKey_deriveChild (ring_xPubKey item) path)) publicKeyRing
                 = Throw LibraryError).
    { induction publicKeyRing as [|x l IH]; [inversion Hin|]. cbn [mapM].
      destruct (HDPublicKey_deriveChild (ring_xPubKey x) path) as [k|] eqn:Ex; cbn [lib mbind result_bind];
        [|reflexivity].
      apply elem_of_cons in Hin as [->|Hin]; [rewrite Hnone in Ex; discriminate Ex|].
      rewrite (IH Hin). reflexivity. }
    rewrite Hm. reflexivity.
  - intros -> Hne Hall Hlen.
    assert (Ht : Utils.is_script_type (Some SCRIPT_TYPES_P2PKH) = true).
    { unfold Utils.is_script_type, includes, Utils.SCRIPT_TYPES_values.
      apply bool_decide_eq_true. apply elem_of_cons. right. apply elem_of_cons. left. reflexivity. }
    rewrite Ht. cbn [checkArgument mbind result_bind].
    assert (Hm : ∃ keys, mapM (λ item, lib (HDPublicKey_deriveChild (ring_xPubKey item) path)) publicKeyRing
                 = Ok keys ∧ length keys = length publicKeyRing).
    { clear Hlen. induction publicKeyRing as [|x l IH]; [exists []; split; reflexivity|].
      cbn [mapM]. destruct (Hall x) as [k Ek]; [apply elem_of_cons; left; reflexivity|].
      rewrite Ek. cbn [lib mbind result_bind].
      destruct IH as (keys & Ekeys & Hl); [intros item Hi; apply Hall, elem_of_cons; right; exact Hi|].
      rewrite Ekeys. cbn [mbind result_bind]. exists (k :: keys). split; [reflexivity|].
      cbn [length]. rewrite Hl. reflexivity. }
    destruct Hm as (keys & -> & Hl). cbn [mbind result_bind].
    unfold eq_s. rewrite bool_decide_false by (intros [= E]; apply Hne; symmetry; exact E).
    rewrite bool_decide_true by reflexivity.
    destruct (Z.eqb_spec (Z.of_nat (length keys)) 1) as [E1|E1]; [lia|]. reflexivity.
Qed.

End DeriveAddress.

Section DeriveAddressExamples.
Import Reference.

Lemma deriveAddress_Ok_witness :
  da_path Sample.derived = "m/0/1" ∧
  Forall2 (λ item key, HDPublicKey_deriveChild (ring_xPubKey item) "m/0/1" = Some key)
    (cred_publicKeyRing Sample.credentials) (da_publicKeys Sample.derived).
Proof.
  pose proof (deriveAddress_Ok (Some "P2SH") (cred_publicKeyRing Sample.credentials) "m/0/1"
                (cred_m Sample.credentials) (cred_network Sample.credentials) Sample.derived)
    as Hd.
  destruct Hd as (_ & Hp & Hk & _); [vm_compute; reflexivity|].
  split; assumption.
Defined.

End DeriveAddressExamples.

(** ** buildTx: guards and what the result does not depend on *)

Lemma foldM_Ok_Forall {A S} (f : S → A → result S) (P : A → Prop) (l : list A) (s s' : S) :
  (∀ s x s', f s x = Ok s' → P x) → foldM f l s = Ok s' → Forall P l.
Proof.
  intros Hf. revert s. induction l as [|x l IH]; intros s; cbn [foldM]; [constructor|].
  intros E. apply bind_Ok in E as (s1 & E1 & E2). constructor; [eapply Hf; exact E1 | eapply IH; exact E2].
Qed.

Lemma foldM_ext {A S} (R : A → A → Prop) (f : S → A → result S) (l l' : list A) (s : S) :
  (∀ s x x', R x x' → f s x = f s x') → Forall2 R l l' → foldM f l s = foldM f l' s.
Proof.
  intros Hf Hl. revert s. induction Hl as [|x x' l l' Hx _ IH]; intros s; cbn [foldM]; [reflexivity|].
  rewrite (Hf s x x' Hx). destruct (f s x') as [s1|e]; cbn [mbind result_bind]; [apply IH | reflexivity].
Qed.

Lemma fold_left_sum {A} (g : A → Z) (l : list A) (a : Z) :
  fold_left (λ memo o, g o + memo) l a = a + fold_left (λ memo o, g o + memo) l 0.
Proof.
  revert a. induction l as [|x l IH]; intros a; cbn [fold_left]; [lia|].
  rewrite (IH (g x + a)), (IH (g x + 0)). lia.
Qed.

Lemma fold_left_sum_perm {A} (g : A → Z) (l l' : list A) :
  l ≡ₚ l' → fold_left (λ memo o, g o + memo) l 0 = fold_left (λ memo o, g o + memo) l' 0.
Proof.
  induction 1 as [|x l l' _ IH|x y l|l l' l'' _ IH1 _ IH2]; cbn [fold_left].
  - reflexivity.
  - rewrite (fold_left_sum g l), (fold_left_sum g l'), IH. reflexivity.
  - rewrite (fold_left_sum g l (g x + (g y + 0))), (fold_left_sum g l (g y + (g x + 0))). lia.
  - rewrite IH1. exact IH2.
Qed.

Lemma round53_exact (z : Z) : Z.abs z ≤ 2 ^ 53 → round53 z = z.
Proof.
  intros Hz. unfold round53. destruct (Z.leb_spec (Z.abs z) (2 ^ 53)); [reflexivity | lia].
Qed.

(** Within the integers that a double holds exactly, the fold of
    [buildTx] in double precision is the exact sum. *)
Lemma fold_left_double_exact {A} (g : A → Z) (l : list A) (a : Z) :
  Forall (λ x, 0 ≤ g x) l → 0 ≤ a →
  a + fold_left (λ memo o, g o + memo) l 0 ≤ 2 ^ 53 →
  fold_left (λ memo o, double_add (g o) memo) l a = fold_left (λ memo o, g o + memo) l a.
Proof.
  intros Hl. revert a. induction Hl as [|x l Hx Hl IH]; intros a Ha Hs; cbn [fold_left]; [reflexivity|].
  cbn [fold_left] in Hs. rewrite (fold_left_sum g l (g x + 0)) in Hs.
  assert (Hr : 0 ≤ fold_left (λ memo o, g o + memo) l 0).
  { clear -Hl. assert (G : ∀ b, 0 ≤ b → 0 ≤ fold_left (λ memo o, g o + memo) l b).
    { induction Hl as [|y l Hy Hl IH]; intros b Hb; cbn [fold_left]; [exact Hb|]. apply IH. lia. }
    apply G. lia. }
  unfold double_add at 2. rewrite round53_exact by lia.
  apply IH; [lia|]. lia.
Qed.

(** Past 2^53 the sum of doubles depends on the order of the terms. *)
Lemma double_add_order :
  double_add 1 (double_add 1 (double_add (2 ^ 53) 0)) = 2 ^ 53 ∧
  double_add (2 ^ 53) (double_add 1 (double_add 1 0)) = 2 ^ 53 + 2.
Proof. split; vm_compute; reflexivity. Qed.

Section BuildTxMore.
Context `{Constants} `{TransactionLib}.

Lemma buildTx_Ok_assemble (txp : Txp) (t' : Transaction) :
  Utils.buildTx txp = Ok t' →
  ∃ t, Utils.buildTx_assemble txp = Ok t ∧ Utils.buildTx_shuffle txp t = Ok t'.
Proof.
  unfold Utils.buildTx. intros E. apply bind_Ok in E as (t & Ea & E). apply bind_Ok in E as (t1 & Es & E).
  apply buildTx_validate_Ok in E as [-> _]. exists t. split; assumption.
Qed.

(** X13.  [buildTx] raises an invalid-state error on an address type
    that is not one of the two known ones, and never returns a
    transaction for a proposal whose output list holds an output with
    neither a script nor a destination address. *)
Theorem buildTx_guards (txp : Txp) :
  (Utils.is_script_type (txp_addressType txp) = false → Utils.buildTx txp = Throw InvalidState) ∧
  (∀ outputs o, txp_outputs txp = Some outputs → o ∈ outputs →
     truthy_s (o_script o) = false → truthy_s (o_toAddress o) = false →
     ∀ t, Utils.buildTx txp ≠ Ok t).
Proof.
  split.
  - intros Ht. unfold Utils.buildTx, Utils.buildTx_assemble. rewrite Ht. reflexivity.
  - intros outputs o Ho Hin Hs Ha t E.
    apply buildTx_Ok_assemble in E as (t0 & E & _).
    unfold Utils.buildTx_assemble in E. rewrite Ho in E.
    apply bind_Ok in E as (u & _ & E). apply bind_Ok in E as (t1 & _ & E).
    apply bind_Ok in E as (t2 & E & _).
    rewrite (bool_decide_true (is_Some (Some outputs))) in E by (eexists; reflexivity).
    rewrite andb_false_r in E.
    apply (foldM_Ok_Forall _ (λ o, truthy_s (or_s (o_script o) (o_toAddress o)) = true)) in E.
    + rewrite Forall_forall in E. specialize (E o Hin). unfold or_s in E. rewrite Hs, Ha in E. discriminate E.
    + intros s x s' Ex. apply bind_Ok in Ex as (u' & Ex & _). apply checkState_Ok in Ex. exact Ex.
Qed.

(** X14.  The transaction [buildTx] rebuilds depends on an output's
    script and amount, and on its destination address only when it has
    no script: two output lists that agree in these give the same
    result, whatever their messages are and whatever destination an
    output that has a script names. *)
Theorem buildTx_script_precedence (txp : Txp) (outputs outputs' : list TxpOutput) :
  Forall2 same_payment outputs outputs' →
  Utils.buildTx (set_outputs (Some outputs) txp) = Utils.buildTx (set_outputs (Some outputs') txp).
Proof.
  intros Hf. unfold Utils.buildTx.
  assert (Ea : Utils.buildTx_assemble (set_outputs (Some outputs) txp) =
               Utils.buildTx_assemble (set_outputs (Some outputs') txp)).
  { unfold Utils.buildTx_assemble. cbn [set_outputs txp_addressType txp_inputs txp_outputs txp_toAddress
      txp_amount txp_fee txp_changeAddress txp_requiredSignatures].
    rewrite !(bool_decide_true (is_Some (Some _))) by (eexists; reflexivity).
    rewrite !andb_false_r.
    destruct (checkState _); cbn [mbind result_bind]; [|reflexivity].
    match goal with |- ?r ≫= _ = _ => destruct r as [t0|]; cbn [mbind result_bind]; [|reflexivity] end.
    rewrite (foldM_ext same_payment _ outputs outputs' t0); [reflexivity| |exact Hf].
    intros s o o' (Hs & Hm & Ha). unfold or_s. rewrite <- Hs, <- Hm.
    destruct (truthy_s (o_script o)) eqn:Et; [reflexivity|]. rewrite <- (Ha eq_refl). reflexivity. }
  rewrite Ea. reflexivity.
Qed.

(** X15.  A negative index in [outputOrder] is not discarded.  With more
    than one output, and a library whose [sortOutputs] installs the list
    its callback returns, [buildTx] never returns a transaction for a
    proposal whose output order holds a negative index. *)
Theorem buildTx_negative_index (txp : Txp) (t : Transaction) (i : Z) :
  Utils.buildTx_assemble txp = Ok t →
  (1 < length (tx_outputs t))%nat →
  In i (txp_outputOrder txp) → i < 0 →
  (∀ f t', tx_sortOutputs t f = Some t' → Some <$> tx_outputs t' = f (tx_outputs t)) →
  In i (Utils.filteredOrder txp (length (tx_outputs t))) ∧ ∀ t', Utils.buildTx txp ≠ Ok t'.
Proof.
  intros Ha Hc Hin Hneg Hlaw.
  assert (Hi : In i (Utils.filteredOrder txp (length (tx_outputs t)))).
  { apply filteredOrder_spec. split; [assumption | lia]. }
  split; [exact Hi|]. intros t' E.
  apply buildTx_Ok_assemble in E as (t0 & Ea & Es). rewrite Ha in Ea. injection Ea as <-.
  unfold Utils.buildTx_shuffle in Es.
  destruct (1 <? length (tx_outputs t))%nat eqn:E1; [|apply Nat.ltb_ge in E1; lia].
  apply bind_Ok in Es as (u & _ & Es). apply lib_Ok in Es. apply Hlaw in Es.
  apply list_elem_of_In, list_elem_of_lookup in Hi as [k Hk].
  pose proof (sortingFunction_lookup _ (tx_outputs t) k i Hk) as Hs.
  rewrite <- Es, list_lookup_fmap in Hs. unfold js_index in Hs.
  destruct (Z.ltb_spec i 0) as [_|Hge]; [|lia].
  destruct (tx_outputs t' !! k); discriminate Hs.
Qed.

(** X16.  While the input amounts and the output amounts are not
    negative and each total is at most 2^53, the totals that [buildTx]
    folds in double precision are the exact sums; with a library whose
    [sortOutputs] returns the outputs in another order, the total of
    the outputs is then the same before and after the reordering, and
    the fee of a proposal that [buildTx] accepts is within the bounds
    on the outputs in their first order as well. *)
Theorem buildTx_total_unordered (txp : Txp) (t t' : Transaction) :
  Utils.buildTx_assemble txp = Ok t →
  Utils.buildTx txp = Ok t' →
  (∀ f t', tx_sortOutputs t f = Some t' → tx_outputs t' ≡ₚ tx_outputs t) →
  Forall (λ i, 0 ≤ in_satoshis i) (txp_inputs txp) →
  Forall (λ o, 0 ≤ out_satoshis o) (tx_outputs t) →
  Utils.totalInputs txp ≤ 2 ^ 53 →
  Utils.totalOutputs t ≤ 2 ^ 53 →
  totalInputs_double txp = Utils.totalInputs txp ∧
  totalOutputs_double t = Utils.totalOutputs t ∧
  totalOutputs_double t' = totalOutputs_double t ∧
  fee_in_bounds txp t.
Proof.
  intros Ha E Hlaw Hin Hout Hti Hto.
  assert (Hb : fee_in_bounds txp t').
  { unfold Utils.buildTx in E. apply bind_Ok in E as (t1 & _ & E). apply bind_Ok in E as (t2 & _ & E).
    apply buildTx_validate_Ok in E as [-> Hb]. exact Hb. }
  apply buildTx_Ok_assemble in E as (t0 & Ea & Es). rewrite Ha in Ea. injection Ea as <-.
  assert (Hp : tx_outputs t' ≡ₚ tx_outputs t).
  { unfold Utils.buildTx_shuffle in Es.
    destruct (1 <? length (tx_outputs t))%nat; [|injection Es as <-; reflexivity].
    apply bind_Ok in Es as (u & _ & Es). apply lib_Ok in Es. apply Hlaw in Es. exact Es. }
  assert (Ht : Utils.totalOutputs t' = Utils.totalOutputs t).
  { unfold Utils.totalOutputs. apply fold_left_sum_perm. exact Hp. }
  assert (Hd : totalOutputs_double t = Utils.totalOutputs t).
  { apply fold_left_double_exact; [exact Hout | lia | rewrite Z.add_0_l; exact Hto]. }
  assert (Hd' : totalOutputs_double t' = Utils.totalOutputs t').
  { apply fold_left_double_exact; [rewrite Hp; exact Hout | lia |].
    rewrite Z.add_0_l. change (Utils.totalOutputs t' ≤ 2 ^ 53). rewrite Ht. exact Hto. }
  split; [apply fold_left_double_exact; [exact Hin | lia | rewrite Z.add_0_l; exact Hti]|].
  split; [exact Hd|]. split; [rewrite Hd', Hd; exact Ht|].
  unfold fee_in_bounds in *. rewrite <- Ht. exact Hb.
Qed.


End BuildTxMore.

Section BuildTxMoreExamples.
Import Reference.

Lemma sort_outputs_permutes (t : RefTx) f (t' : RefTx) :
  sort_outputs t f = Some t' → rt_outputs t' ≡ₚ rt_outputs t.
Proof.
  unfold sort_outputs. intros Hs.
  destruct (bool_decide (length (f (rt_outputs t)) = length (rt_outputs t))); simpl in Hs; [|discriminate].
  destruct (bool_decide (omap id (f (rt_outputs t)) ≡ₚ rt_outputs t)) eqn:E2; simpl in Hs; [|discriminate].
  injection Hs as <-. simpl. apply bool_decide_eq_true in E2. exact E2.
Qed.

Lemma buildTx_script_precedence_witness :
  Utils.buildTx (set_outputs (Some [Sample.pay_script]) Sample.txp) =
  Utils.buildTx (set_outputs (Some [Sample.pay_script_relabelled]) Sample.txp).
Proof.
  apply buildTx_script_precedence. constructor; [|constructor].
  split; [reflexivity|]. split; [reflexivity | discriminate].
Defined.

Lemma buildTx_negative_index_witness :
  In (-1) (Utils.filteredOrder Sample.txp_negative (length (tx_outputs Sample.assembled))).
Proof.
  refine (proj1 (buildTx_negative_index Sample.txp_negative Sample.assembled (-1) _ _ _ _ _)).
  - vm_compute. reflexivity.
  - simpl. lia.
  - left. reflexivity.
  - lia.
  - intros f t'. apply sort_outputs_installs.
Defined.

Lemma buildTx_total_unordered_witness :
  totalInputs_double Sample.txp = Utils.totalInputs Sample.txp ∧
  totalOutputs_double Sample.assembled = Utils.totalOutputs Sample.assembled ∧
  totalOutputs_double Sample.shuffled = totalOutputs_double Sample.assembled ∧
  fee_in_bounds Sample.txp Sample.assembled.
Proof.
  apply (buildTx_total_unordered Sample.txp Sample.assembled Sample.shuffled).
  - vm_compute. reflexivity.
  - vm_compute. reflexivity.
  - intros f t'. apply sort_outputs_permutes.
  - repeat constructor; vm_compute; discriminate.
  - repeat constructor; vm_compute; discriminate.
  - vm_compute. discriminate.
  - vm_compute. discriminate.
Defined.


End BuildTxMoreExamples.

(** ** The copayer hash *)

Lemma append_pipe_inj (s1 s2 r1 r2 : string) :
  no_pipe s1 → no_pipe s2 →
  (s1 ++ String "|" r1)%string = (s2 ++ String "|" r2)%string → s1 = s2 ∧ r1 = r2.
Proof.
  unfold no_pipe. revert s2. induction s1 as [|a s1 IH]; intros [|b s2] H1 H2; cbn.
  - intros [= ->]. split; reflexivity.
  - intros [= <- _]. exfalso. apply H2. left. reflexivity.
  - intros [= -> _]. exfalso. apply H1. left. reflexivity.
  - intros [= -> E]. destruct (IH s2) as [-> ->]; [| |exact E|split; reflexivity].
    + intros Hin. apply H1. right. exact Hin.
    + intros Hin. apply H2. right. exact Hin.
Qed.

Lemma append_assoc_string (a b c : string) : ((a ++ b) ++ c)%string = (a ++ (b ++ c))%string.
Proof.
  induction a as [|x a IH]; [reflexivity|].
  change (String x ((a ++ b) ++ c) = String x (a ++ (b ++ c)))%string. f_equal. exact IH.
Qed.

Lemma append_String_assoc (a : string) (x : ascii) (b c : string) :
  ((a ++ String x b) ++ c)%string = (a ++ String x (b ++ c))%string.
Proof.
  induction a as [|y a IH]; [reflexivity|].
  change (String y ((a ++ String x b) ++ c) = String y (a ++ String x (b ++ c)))%string. f_equal. exact IH.
Qed.

Lemma getCopayerHash_unfold (name xPubKey requestPubKey : option string) :
  Utils.getCopayerHash name xPubKey requestPubKey =
  (default "" name ++ String "|" (default "" xPubKey ++ String "|" (default "" requestPubKey)))%string.
Proof. reflexivity. Qed.

(** X17.  The copayer hash separates its three parts only where the
    name and the extended public key hold no pipe character: then equal
    hashes mean equal names, equal extended keys and equal request keys.
    With a pipe in the name the parts run together: a name [a|b] with
    the key [c] has the hash of the name [a] with the key [b|c]. *)
Theorem getCopayerHash_separation :
  (∀ name xPubKey requestPubKey name' xPubKey' requestPubKey',
     no_pipe (default "" name) → no_pipe (default "" name') →
     no_pipe (default "" xPubKey) → no_pipe (default "" xPubKey') →
     Utils.getCopayerHash name xPubKey requestPubKey =
       Utils.getCopayerHash name' xPubKey' requestPubKey' →
     default "" name = default "" name' ∧
     default "" xPubKey = default "" xPubKey' ∧
     default "" requestPubKey = default "" requestPubKey') ∧
  (∀ a b c requestPubKey,
     Utils.getCopayerHash (Some (a ++ String "|" b)%string) (Some c) requestPubKey =
     Utils.getCopayerHash (Some a) (Some (b ++ String "|" c)%string) requestPubKey).
Proof.
  split.
  - intros n x r n' x' r' Hn Hn' Hx Hx'. rewrite !getCopayerHash_unfold. intros E.
    apply append_pipe_inj in E as [En E]; [|assumption|assumption].
    apply append_pipe_inj in E as [Ex Er]; [|assumption|assumption].
    repeat split; assumption.
  - intros a b c r. rewrite !getCopayerHash_unfold.
    change (default "" (Some (a ++ String "|" b)%string)) with (a ++ String "|" b)%string.
    change (default "" (Some (b ++ String "|" c)%string)) with (b ++ String "|" c)%string.
    change (default "" (Some a)) with a. change (default "" (Some c)) with c.
    rewrite !append_String_assoc. reflexivity.
Qed.

(** ** Encryption and signing round trips *)

Section Encryption.
Context `{SjclEncrypt}.

(** X18.  [encryptMessage] always encrypts with a key size of 128 and
    one iteration: [Utils.SJCL] cannot override these two parameters,
    and every other property of [Utils.SJCL] is passed on.  On a key
    that does not decode, [encryptMessage] raises while
    [decryptMessage] returns the ciphertext it was given. *)
Theorem encryptMessage_parameters (SJCL : gmap string Z) :
  Utils.encrypt_params SJCL !! "ks" = Some 128 ∧
  Utils.encrypt_params SJCL !! "iter" = Some 1 ∧
  (∀ k, k ≠ "ks" → k ≠ "iter" → Utils.encrypt_params SJCL !! k = SJCL !! k) ∧
  (∀ message cyphertextJson encryptingKey, base64_toBits encryptingKey = None →
     Utils.encryptMessage SJCL message encryptingKey = Throw LibraryError ∧
     Utils.decryptMessage cyphertextJson encryptingKey = Ok cyphertextJson).
Proof.
  unfold Utils.encrypt_params. split; [|split; [|split]].
  - apply lookup_union_Some_l. rewrite lookup_insert_eq. reflexivity.
  - apply lookup_union_Some_l. rewrite lookup_insert_ne by discriminate. apply lookup_singleton_eq.
  - intros k Hks Hiter. apply lookup_union_r.
    rewrite lookup_insert_ne by (intros E; apply Hks; symmetry; exact E).
    apply lookup_singleton_ne. intros E. apply Hiter. symmetry. exact E.
  - intros message c key Hk. unfold Utils.encryptMessage, Utils.decryptMessage. rewrite Hk.
    split; reflexivity.
Qed.

(** X19.  With a library that decrypts what it encrypted under the same
    key, [decryptMessage] gives back the message that [encryptMessage]
    was given, whatever [Utils.SJCL] holds. *)
Theorem encryptMessage_decryptMessage (SJCL : gmap string Z) (message encryptingKey c : string) :
  (∀ key m params c, sjcl_encrypt key m params = Some c → sjcl_decrypt key c = Some m) →
  Utils.encryptMessage SJCL message encryptingKey = Ok c →
  Utils.decryptMessage (Some c) encryptingKey = Ok (Some message).
Proof.
  intros Hlaw E. unfold Utils.encryptMessage in E. apply bind_Ok in E as (key & Ek & E).
  apply lib_Ok in Ek, E. apply Hlaw in E.
  unfold Utils.decryptMessage. rewrite Ek. cbn [lib mbind result_bind]. rewrite E. reflexivity.
Qed.

End Encryption.

Section Signing.
Context `{Constants} `{CryptoLib} `{SigningLib}.

Lemma signMessage_verifies (text : string) (privKey : string + PrivateKey) (priv : PrivateKey)
  (pubKey : string) (pub : PublicKey) (signed : string) :
  PrivateKey_new privKey = Some priv →
  pubKey ≠ "" → PublicKey_new pubKey = Some pub →
  key_pair priv pub →
  Utils.signMessage text privKey = Ok signed →
  Utils.verifyMessage text (Some signed) pubKey = Ok true.
Proof.
  intros Hpriv Hne Hpub Hpair E. unfold Utils.signMessage in E.
  apply bind_Ok in E as (u & Et & E). apply bind_Ok in E as (priv' & Ep & E).
  apply bind_Ok in E as (hash & Eh & E). apply bind_Ok in E as (signed' & Es & [= <-]).
  rewrite Hpriv in Ep. injection Ep as <-. apply lib_Ok in Es.
  destruct (Hpair hash signed' Es) as (Hs & sig & Esig & Ev).
  unfold Utils.verifyMessage. rewrite Et. cbn [mbind result_bind].
  rewrite (truthy_s_Some pubKey Hne). cbn [checkArgument mbind result_bind].
  rewrite (truthy_s_Some signed' Hs). cbn [negb]. rewrite Hpub. cbn [lib mbind result_bind].
  rewrite Eh. cbn [mbind result_bind]. rewrite Esig. cbn [lib mbind result_bind]. rewrite Ev. reflexivity.
Qed.

(** X20.  A signature that [signMessage] returns for a text verifies:
    with a private key and a public key on which the library's signing
    and verification agree, [verifyMessage] returns true for the text,
    the signature and the public key.  Both sides hash the text the same
    way. *)
Theorem signMessage_verifyMessage (text : string) (privKey : string + PrivateKey) (priv : PrivateKey)
  (pubKey : string) (pub : PublicKey) (signed : string) :
  PrivateKey_new privKey = Some priv →
  pubKey ≠ "" → PublicKey_new pubKey = Some pub →
  key_pair priv pub →
  Utils.signMessage text privKey = Ok signed →
  Utils.verifyMessage text (Some signed) pubKey = Ok true ∧ text ≠ "".
Proof.
  intros Hpriv Hne Hpub Hpair E. split; [eapply signMessage_verifies; eassumption|].
  intros ->. discriminate E.
Qed.

(** X21.  A request key signed by [signRequestPubKey] with an extended
    private key verifies in [verifyRequestPubKey] with the matching
    extended public key: both derive their key at the same path, so it
    is enough that the library's private and public children at that
    path form a key pair. *)
Theorem signRequestPubKey_verifyRequestPubKey (requestPubKey xPrivKey xPubKey : string)
  (child priv : PrivateKey) (pubKey : string) (pub : PublicKey) (signed : string) :
  HDPrivateKey_deriveChild xPrivKey PATHS_REQUEST_KEY_AUTH = Some child →
  PrivateKey_new (inr child) = Some priv →
  HDPublicKey_deriveChild xPubKey PATHS_REQUEST_KEY_AUTH = Some pubKey →
  pubKey ≠ "" → PublicKey_new pubKey = Some pub →
  key_pair priv pub →
  Utils.signRequestPubKey requestPubKey xPrivKey = Ok signed →
  Utils.verifyRequestPubKey requestPubKey (Some signed) xPubKey = Ok true.
Proof.
  intros Hchild Hpriv Hder Hne Hpub Hpair E.
  unfold Utils.signRequestPubKey in E. rewrite Hchild in E. cbn [lib mbind result_bind] in E.
  unfold Utils.verifyRequestPubKey. rewrite Hder. cbn [lib mbind result_bind].
  eapply signMessage_verifies; eassumption.
Qed.

End Signing.

Section SigningExamples.
Import Reference.

Lemma prefix_append (a b : string) : String.prefix a (a +:+ b) = true.
Proof.
  induction a as [|x a IH]; [destruct b; reflexivity|].
  change (String x a +:+ b) with (String x (a +:+ b)). cbn [String.prefix].
  destruct (Ascii.ascii_dec x x) as [_|Hn]; [exact IH | contradiction].
Qed.

Lemma substring_append (a b : string) :
  String.substring (String.length a) (String.length (a +:+ b) - String.length a) (a +:+ b) = b.
Proof.
  induction a as [|x a IH].
  - change ("" +:+ b) with b. cbn [String.length]. rewrite Nat.sub_0_r.
    induction b as [|y b IHb]; [reflexivity|]. cbn [String.length String.substring]. f_equal. exact IHb.
  - change (String x a +:+ b) with (String x (a +:+ b)). cbn [String.length String.substring Nat.sub].
    exact IH.
Qed.

Lemma reference_key_pair (k : string) : @key_pair crypto signing k ("pub:" +:+ k).
Proof.
  intros hash signed E. injection E as <-. split.
  - intros Hc. apply (f_equal String.length) in Hc.
    change ("sig:" +:+ string_of_list_ascii hash +:+ "@pub:" +:+ k)
      with (String "s" ("ig:" +:+ string_of_list_ascii hash +:+ "@pub:" +:+ k)) in Hc.
    discriminate Hc.
  - exists ("sig:" +:+ string_of_list_ascii hash +:+ "@pub:" +:+ k). split.
    + change (tagged "sig:" ("sig:" +:+ (string_of_list_ascii hash +:+ "@pub:" +:+ k)) =
              Some ("sig:" +:+ (string_of_list_ascii hash +:+ "@pub:" +:+ k))).
      unfold tagged. rewrite prefix_append. reflexivity.
    + change (Some (String.eqb ("sig:" +:+ string_of_list_ascii hash +:+ "@pub:" +:+ k)
                               ("sig:" +:+ string_of_list_ascii hash +:+ "@" +:+ "pub:" +:+ k)) = Some true).
      f_equal. apply String.eqb_eq. reflexivity.
Qed.

Lemma encryptMessage_decryptMessage_witness :
  Utils.decryptMessage (Some "enc(k):hello") "k" = Ok (Some "hello").
Proof.
  apply (encryptMessage_decryptMessage ∅ "hello" "k" "enc(k):hello").
  - intros key m params c [= <-].
    change (sjcl_decrypt key ("enc(" +:+ key +:+ "):" +:+ m))
      with (if String.prefix ("enc(" +:+ key +:+ "):") ("enc(" +:+ key +:+ "):" +:+ m)
            then Some (String.substring (String.length ("enc(" +:+ key +:+ "):"))
                         (String.length ("enc(" +:+ key +:+ "):" +:+ m)
                          - String.length ("enc(" +:+ key +:+ "):"))
                         ("enc(" +:+ key +:+ "):" +:+ m))
            else None).
    assert (Ha : "enc(" +:+ key +:+ "):" +:+ m = ("enc(" +:+ key +:+ "):") +:+ m).
    { change ("enc(" +:+ key +:+ "):" +:+ m) with (String "e" (String "n" (String "c" (String "(" (key +:+ "):" +:+ m))))).
      change (("enc(" +:+ key +:+ "):") +:+ m) with (String "e" (String "n" (String "c" (String "(" ((key +:+ "):") +:+ m))))).
      rewrite append_assoc_string. reflexivity. }
    rewrite Ha, prefix_append, substring_append. reflexivity.
  - reflexivity.
Defined.

Lemma signMessage_verifyMessage_witness :
  Utils.verifyMessage "hello" (Some "sig:olleh@pub:priv:w") "pub:priv:w" = Ok true ∧ "hello" ≠ "".
Proof.
  apply (@signMessage_verifyMessage crypto signing "hello" (inl "priv:w") "priv:w" "pub:priv:w" "pub:priv:w").
  - reflexivity.
  - discriminate.
  - reflexivity.
  - apply reference_key_pair.
  - reflexivity.
Defined.

Lemma signRequestPubKey_verifyRequestPubKey_witness :
  Utils.verifyRequestPubKey "pub:reqA" (Some "sig:Aqer:bup@pub:xpubA/m/1'/0") "xpubA" = Ok true.
Proof.
  apply (@signRequestPubKey_verifyRequestPubKey constants crypto signing "pub:reqA" "xprvA" "xpubA"
           "xpubA/m/1'/0" "xpubA/m/1'/0" "pub:xpubA/m/1'/0" "pub:xpubA/m/1'/0").
  - reflexivity.
  - reflexivity.
  - reflexivity.
  - discriminate.
  - reflexivity.
  - apply reference_key_pair.
  - vm_compute. reflexivity.
Defined.

End SigningExamples.

(** ** The proposal hash of old clients *)

Section ProposalHash.
Context `{StringifyLib} `{NumberLib}.

Lemma getOldHash_join (toAddress amount message payProUrl : JsArg Header) :
  Utils.getOldHash toAddress amount message payProUrl =
  Utils.arg_to_string toAddress +:+ "|" +:+ Utils.arg_to_string amount +:+ "|" +:+
  (if Utils.truthy_arg message then Utils.arg_to_string message else "") +:+ "|" +:+
  (if Utils.truthy_arg payProUrl then Utils.arg_to_string payProUrl else "").
Proof.
  unfold Utils.getOldHash. destruct (Utils.truthy_arg message), (Utils.truthy_arg payProUrl); reflexivity.
Qed.

Lemma string_field (s : string) :
  (if Utils.truthy_arg (AStr s) then Utils.arg_to_string (AStr s : JsArg Header) else "") = s.
Proof. destruct s; reflexivity. Qed.

(** X22.  Called with two arguments or more, [getProposalHash] returns
    the first four joined with pipes, a number in the form the
    platform prints it, an absent argument as the empty string, and a
    message or a payment-protocol URL that is absent, empty or zero as
    the empty string; further arguments are ignored.  The hash
    therefore does not tell a falsy message or URL from an absent one,
    nor where a message that holds a pipe ends.  Called with one
    argument or none, it serializes its first parameter. *)
Theorem getProposalHash_legacy (arguments : list (JsArg Header)) :
  ((1 < length arguments)%nat →
     Utils.getProposalHash arguments =
       Utils.arg_to_string (Utils.parameter arguments 0) +:+ "|" +:+
       Utils.arg_to_string (Utils.parameter arguments 1) +:+ "|" +:+
       (if Utils.truthy_arg (Utils.parameter arguments 2)
        then Utils.arg_to_string (Utils.parameter arguments 2) else "") +:+ "|" +:+
       (if Utils.truthy_arg (Utils.parameter arguments 3)
        then Utils.arg_to_string (Utils.parameter arguments 3) else "") ∧
     Utils.getProposalHash arguments = Utils.getProposalHash (take 4 arguments)) ∧
  (∀ toAddress amount message payProUrl,
     Utils.truthy_arg message = false → Utils.truthy_arg payProUrl = false →
     Utils.getProposalHash [toAddress; amount; message; payProUrl] =
     Utils.getProposalHash [toAddress; amount]) ∧
  (∀ toAddress amount (message rest payProUrl : string),
     Utils.getProposalHash [toAddress; amount; AStr (message +:+ "|" +:+ rest); AStr payProUrl] =
     Utils.getProposalHash [toAddress; amount; AStr message; AStr (rest +:+ "|" +:+ payProUrl)]) ∧
  ((length arguments ≤ 1)%nat →
     Utils.getProposalHash arguments = Stringify (Utils.parameter arguments 0)).
Proof.
  split; [|split; [|split]].
  - intros Hl. split.
    + unfold Utils.getProposalHash. destruct (Nat.ltb_spec 1 (length arguments)) as [_|Hge]; [|lia].
      apply getOldHash_join.
    + destruct arguments as [|a0 [|a1 [|a2 [|a3 [|a4 rest]]]]]; cbn [length] in Hl; try lia; reflexivity.
  - intros toAddress amount message payProUrl Hm Hu.
    unfold Utils.getProposalHash. cbn [length Nat.ltb Nat.leb]. rewrite !getOldHash_join.
    unfold Utils.parameter. cbn [lookup list_lookup default from_option id]. rewrite Hm, Hu. reflexivity.
  - intros toAddress amount message rest payProUrl.
    unfold Utils.getProposalHash. cbn [length Nat.ltb Nat.leb]. rewrite !getOldHash_join.
    unfold Utils.parameter. cbn [lookup list_lookup default from_option id]. rewrite !string_field.
    do 4 f_equal. rewrite !append_assoc_string. reflexivity.
  - intros Hl. unfold Utils.getProposalHash.
    destruct (1 <? length arguments)%nat eqn:E; [apply Nat.ltb_lt in E; lia | reflexivity].
Qed.

End ProposalHash.

(** ** Unit scaling: what is left alone *)

Section UnitScalingFrame.
Context `{NumberLib}.

Lemma scale_number_same_kind (r : Q) (v : JsVal) : same_kind v (Utils.scale_number r v).
Proof.
  unfold same_kind, Utils.scale_number. destruct v; cbn; split; try reflexivity; intros; try discriminate;
    reflexivity.
Qed.

Lemma js_mul_isNumber (v : JsVal) (r : Q) : isNumber (Utils.js_mul v r) = true.
Proof. destruct v; cbn; try reflexivity. destruct (string_to_number s); reflexivity. Qed.

(** X23.  [convertTxpSatoshiToCoinProtocol] keeps the outputs and the
    inputs of [opts] in number and order and never touches a
    destination address or a transaction id.  Of an amount of an
    output or an input, and of the fee level, the fee per kilobyte and
    the fee, a number stays a number and anything else is left as it
    was.  The amount of [opts] itself is tested for truthiness
    instead: a falsy amount is left as it was, and a truthy one, a
    non-empty string included, is a number afterwards.  A ratio
    argument of zero is replaced by the default like an absent one. *)
Theorem convertTxpSatoshiToCoinProtocol_frame (opts : ConvOpts) (fromSatToCoin toSatToCoin : option Q) :
  option_Forall2 (Forall2 output_kept) (cv_outputs opts)
    (cv_outputs (Utils.convertTxpSatoshiToCoinProtocol opts fromSatToCoin toSatToCoin)) ∧
  option_Forall2 (Forall2 input_kept) (cv_inputs opts)
    (cv_inputs (Utils.convertTxpSatoshiToCoinProtocol opts fromSatToCoin toSatToCoin)) ∧
  same_kind (cv_feeLevel opts)
    (cv_feeLevel (Utils.convertTxpSatoshiToCoinProtocol opts fromSatToCoin toSatToCoin)) ∧
  same_kind (cv_feePerKb opts)
    (cv_feePerKb (Utils.convertTxpSatoshiToCoinProtocol opts fromSatToCoin toSatToCoin)) ∧
  same_kind (cv_fee opts)
    (cv_fee (Utils.convertTxpSatoshiToCoinProtocol opts fromSatToCoin toSatToCoin)) ∧
  (truthy_val (cv_amount opts) = false →
     cv_amount (Utils.convertTxpSatoshiToCoinProtocol opts fromSatToCoin toSatToCoin) = cv_amount opts) ∧
  (truthy_val (cv_amount opts) = true →
     isNumber (cv_amount (Utils.convertTxpSatoshiToCoinProtocol opts fromSatToCoin toSatToCoin)) = true) ∧
  Utils.coinRatio (Some 0%Q) toSatToCoin = Utils.coinRatio None toSatToCoin ∧
  Utils.coinRatio fromSatToCoin (Some 0%Q) = Utils.coinRatio fromSatToCoin None.
Proof.
  unfold Utils.convertTxpSatoshiToCoinProtocol.
  cbn [cv_outputs cv_inputs cv_feeLevel cv_feePerKb cv_fee cv_amount].
  split; [|split; [|split; [|split; [|split; [|split; [|split; [|split]]]]]]].
  - destruct (cv_outputs opts) as [outputs|]; cbn [fmap option_fmap option_map]; constructor.
    induction outputs as [|o outputs IH]; cbn [List.map]; constructor; [|exact IH].
    split; [reflexivity | apply scale_number_same_kind].
  - destruct (cv_inputs opts) as [inputs|]; cbn [fmap option_fmap option_map]; constructor.
    induction inputs as [|i inputs IH]; cbn [List.map]; constructor; [|exact IH].
    split; [reflexivity | apply scale_number_same_kind].
  - apply scale_number_same_kind.
  - apply scale_number_same_kind.
  - apply scale_number_same_kind.
  - intros Hf. unfold Utils.scale_truthy. rewrite Hf. reflexivity.
  - intros Ht. unfold Utils.scale_truthy. rewrite Ht. apply js_mul_isNumber.
  - reflexivity.
  - reflexivity.
Qed.

End UnitScalingFrame.

Section UnitScalingExamples.
Import Reference.

(** The amount of the sample options is the string 57; after the call
    it is a number. *)
Lemma convertTxpSatoshiToCoinProtocol_frame_witness :
  isNumber (cv_amount Sample.conv_opts) = false ∧
  isNumber (cv_amount (Utils.convertTxpSatoshiToCoinProtocol Sample.conv_opts (Some 1%Q) (Some 2%Q))) = true.
Proof.
  split; [reflexivity|].
  apply (convertTxpSatoshiToCoinProtocol_frame Sample.conv_opts (Some 1%Q) (Some 2%Q)). reflexivity.
Defined.

End UnitScalingExamples.

(** ** Early exits of verifyMessage and checkAddress *)

Section EarlyExits.
Context `{Constants} `{CryptoLib}.

(** X24.  [verifyMessage] looks at the signature before it parses the
    public key: for a non-empty text and a non-empty public-key string,
    a missing or empty signature yields false even when the library
    cannot parse the key.  An empty text raises an invalid-argument
    error whatever the signature and the key are, and so does
    [hashMessage]. *)
Theorem verifyMessage_missing_signature (text : string) (signature : option string) (pubKey : string) :
  (text ≠ "" → pubKey ≠ "" → truthy_s signature = false →
     Utils.verifyMessage text signature pubKey = Ok false) ∧
  Utils.verifyMessage "" signature pubKey = Throw InvalidArgument ∧
  Utils.hashMessage "" = Throw InvalidArgument.
Proof.
  split; [|split; reflexivity].
  intros Ht Hp Hs. unfold Utils.verifyMessage.
  rewrite (truthy_s_Some text Ht), (truthy_s_Some pubKey Hp), Hs. reflexivity.
Qed.

(** X25.  [checkAddress] raises an invalid-state error on incomplete
    credentials whatever the address is; with complete credentials it
    raises a type error on an undefined address, and an invalid-argument
    error when neither the address nor the credentials name a known
    script type.  In none of these cases does it return false. *)
Theorem checkAddress_errors (credentials : Credentials) (address : option AddressObj) :
  (isComplete credentials = false →
     Verifier.checkAddress credentials address = Throw InvalidState) ∧
  (isComplete credentials = true →
     Verifier.checkAddress credentials None = Throw TypeError) ∧
  (∀ a, isComplete credentials = true →
     Utils.is_script_type (or_s (addr_type a) (cred_addressType credentials)) = false →
     Verifier.checkAddress credentials (Some a) = Throw InvalidArgument).
Proof.
  unfold Verifier.checkAddress. split; [|split].
  - intros ->. reflexivity.
  - intros ->. reflexivity.
  - intros a -> Ht. cbn [checkState mbind result_bind]. unfold Utils.deriveAddress. rewrite Ht. reflexivity.
Qed.

End EarlyExits.
